(** * keywordmapper.py: the keyword-to-URL mapper, embedded and verified

    A shallow embedding of [SimpleKeywordMapper] (keywordmapper.py): text
    normalisation, URL decomposition, weighted scoring, best-match selection
    and the rows of the result CSV.

    Modelling conventions.
    - A Python [str] is a [string]; a character is a code point below 256,
      classified with Python's own tables restricted to that range
      ([str.lower], the regex classes [\w] and [\s], [str.isspace]).
    - A Python [float] score is an exact rational ([Q]): the operations
      [/], [*], [+], [>] and [>=] are those of the source, in its order.
    - A [dict] is a [gmap]; a record row maps column names to cells.
    - [raise]/[try]/[except] are explicit: a computation yields a
      [result]; the logger calls are collected as structured records. *)

From Stdlib Require Import QArith Lqa.
From Stdlib Require Import String Ascii List Bool Lia Sorted.
From stdpp Require Import base option list gmap strings.

Local Open Scope string_scope.

(** ** Characters and strings, as Python classifies them *)

Module Text.

Definition code (c : ascii) : nat := nat_of_ascii c.

Definition in_range (lo hi : nat) (c : ascii) : bool :=
  (lo <=? code c)%nat && (code c <=? hi)%nat.

(** [str.lower] on one character: A-Z, and the Latin-1 capitals
    U+00C0..U+00DE without the multiplication sign U+00D7. *)
Definition lower_char (c : ascii) : ascii :=
  if in_range 65 90 c
     || (in_range 192 222 c && negb (code c =? 215)%nat)
  then ascii_of_nat (code c + 32)
  else c.

(** The regex class [\w] of a [str] pattern: [str.isalnum] or underscore. *)
Definition is_word (c : ascii) : bool :=
  in_range 48 57 c || in_range 65 90 c || (code c =? 95)%nat
  || in_range 97 122 c || (code c =? 170)%nat || in_range 178 179 c
  || (code c =? 181)%nat || in_range 185 186 c || in_range 188 190 c
  || in_range 192 214 c || in_range 216 246 c || in_range 248 255 c.

(** The regex class [\s], which is also [str.isspace]. *)
Definition is_space (c : ascii) : bool :=
  in_range 9 13 c || in_range 28 32 c || (code c =? 133)%nat
  || (code c =? 160)%nat.

(** The class [[/_\-\|&]]. *)
Definition is_sep (c : ascii) : bool :=
  (code c =? 47)%nat || (code c =? 95)%nat || (code c =? 45)%nat
  || (code c =? 124)%nat || (code c =? 38)%nat.

(** The class [[^\w\s]]. *)
Definition is_special (c : ascii) : bool := negb (is_word c || is_space c).

Definition space : ascii := " "%char.

Fixpoint lower (s : string) : string :=
  match s with
  | EmptyString => EmptyString
  | String c t => String (lower_char c) (lower t)
  end.

(** [re.sub(r'[p]+', ' ', s)]: every maximal run of characters of the
    class becomes one space (the space is written at the run's last
    character). *)
Fixpoint sub_runs (p : ascii -> bool) (s : string) : string :=
  match s with
  | EmptyString => EmptyString
  | String c t =>
      if p c then
        match t with
        | EmptyString => String space EmptyString
        | String d _ => if p d then sub_runs p t else String space (sub_runs p t)
        end
      else String c (sub_runs p t)
  end.

(** [re.sub(r'[p]', ' ', s)]: every character of the class becomes a space. *)
Fixpoint sub_each (p : ascii -> bool) (s : string) : string :=
  match s with
  | EmptyString => EmptyString
  | String c t => String (if p c then space else c) (sub_each p t)
  end.

Fixpoint lstrip (s : string) : string :=
  match s with
  | EmptyString => EmptyString
  | String c t => if is_space c then lstrip t else s
  end.

Fixpoint rstrip (s : string) : string :=
  match s with
  | EmptyString => EmptyString
  | String c t =>
      match rstrip t with
      | EmptyString => if is_space c then EmptyString else String c EmptyString
      | r => String c r
      end
  end.

(** [str.strip()] *)
Definition strip (s : string) : string := rstrip (lstrip s).

(** [str.split()] with no argument: the maximal runs of non-space
    characters, in order; [cur] is the word being read. *)
Fixpoint split_go (cur : string) (s : string) : list string :=
  match s with
  | EmptyString => match cur with EmptyString => [] | _ => [cur] end
  | String c t =>
      if is_space c then
        match cur with
        | EmptyString => split_go EmptyString t
        | _ => cur :: split_go EmptyString t
        end
      else split_go (cur +:+ String c EmptyString) t
  end.

Definition split (s : string) : list string := split_go EmptyString s.

(** [word in content]: [word] occurs in [content] as a substring. *)
Fixpoint contains (word content : string) : bool :=
  String.prefix word content
  || match content with
     | EmptyString => false
     | String _ t => contains word t
     end.

(** [s.replace(old, new)]: the occurrences of [old] are replaced from
    left to right, without overlap; [skip] counts the characters of an
    occurrence still to be passed over. *)
Fixpoint replace_go (old new : string) (skip : nat) (s : string) : string :=
  match s with
  | EmptyString =>
      match skip, old with
      | O, EmptyString => new
      | _, _ => EmptyString
      end
  | String c t =>
      match skip with
      | S k => replace_go old new k t
      | O =>
          if String.prefix old s then
            match old with
            | EmptyString => new +:+ String c (replace_go old new 0 t)
            | String _ o => new +:+ replace_go old new (String.length o) t
            end
          else String c (replace_go old new 0 t)
      end
  end.

Definition replace (old new s : string) : string := replace_go old new 0 s.

Fixpoint all_chars (p : ascii -> bool) (s : string) : bool :=
  match s with
  | EmptyString => true
  | String c t => p c && all_chars p t
  end.

(** [s[:n]] *)
Fixpoint take (n : nat) (s : string) : string :=
  match n, s with
  | S k, String c t => String c (take k t)
  | _, _ => EmptyString
  end.

End Text.

(** ** Exceptions, cells and log records *)

(** An exception instance (of a subclass of [Exception]), by the name of
    its class. *)
Inductive exn := PyError (name : string).

Inductive result (A : Type) :=
| Ok (a : A)
| Raise (e : exn).
Arguments Ok {A} a.
Arguments Raise {A} e.

#[global] Instance result_ret : MRet result := @Ok.
#[global] Instance result_bind : MBind result := λ A B f m,
  match m with
  | Ok a => f a
  | Raise e => Raise e
  end.

(** [try: body / except: handler] *)
Definition try_except {A} (body : result A) (handler : exn -> result A) : result A :=
  match body with
  | Ok a => Ok a
  | Raise e => handler e
  end.

(** A cell of a record row, as the code uses it: through its truth value
    and through [str()]. [csv.DictReader] yields a [str], or [None] for a
    short line; [PFaulty e repr] is any other object, one whose truth test
    raises [e] (malformed data) and whose [str()] is [repr]. *)
Inductive pyobj :=
| PStr (s : string)
| PNone
| PFaulty (e : exn) (repr : string).

Definition truth (v : pyobj) : result bool :=
  match v with
  | PStr EmptyString => Ok false
  | PStr _ => Ok true
  | PNone => Ok false
  | PFaulty e _ => Raise e
  end.

Definition py_str (v : pyobj) : string :=
  match v with
  | PStr s => s
  | PNone => "None"
  | PFaulty _ repr => repr
  end.

(** A column name of the export. The byte order mark U+FEFF of the alias
    [U+FEFF Address] lies outside the characters of [string], so a name
    that starts with it has a constructor of its own. *)
Inductive column :=
| Col (name : string)
| BomCol (name : string).

#[global] Instance column_eq_dec : EqDecision column.
Proof. solve_decision. Defined.

#[global] Instance column_countable : Countable column :=
  inj_countable'
    (λ c, match c with Col n => inl n | BomCol n => inr n end)
    (λ x, match x with inl n => Col n | inr n => BomCol n end)
    (λ c, match c with Col _ => eq_refl | BomCol _ => eq_refl end).

(** [row.get(key, default)] *)
Definition row_get (row : gmap column pyobj) (key : column) (default : pyobj) : pyobj :=
  match row !! key with
  | Some v => v
  | None => default
  end.

(** ** [normalize_text] (keywordmapper.py, lines 80-97) *)

(** Lines 86-95: lower-casing and the three substitutions. *)
Definition clean_text (text : string) : string :=
  let text := Text.lower text in
  let text := Text.sub_runs Text.is_sep text in
  let text := Text.sub_each Text.is_special text in
  Text.sub_runs Text.is_space (Text.strip text).

Definition normalize_text (text : pyobj) : result string :=
  nonempty ← truth text;
  if negb nonempty then Ok "" else Ok (clean_text (py_str text)).

(** ** [urllib.parse.urlparse] *)

Record ParseResult := {
  scheme : string; netloc : string; path : string;
  params : string; query : string; fragment : string
}.

(** A model of the library function for URLs of Latin-1 characters:
    [urlsplit] followed by the split of the parameters. An unbalanced
    bracket in the network location raises [ValueError]; the two further
    checks of the library (the address inside balanced brackets and the
    NFKC form of a non-ASCII host) are not modelled. The theorems below hold
    for any parser; this one serves the worked examples. *)
Module Urllib.

Definition is_char (d c : ascii) : bool := (Text.code c =? Text.code d)%nat.

(** The part of [s] before the first character of the class, and the
    rest from that character on. *)
Fixpoint break_at (p : ascii -> bool) (s : string) : string * string :=
  match s with
  | EmptyString => (EmptyString, EmptyString)
  | String c t =>
      if p c then (EmptyString, s)
      else let '(a, b) := break_at p t in (String c a, b)
  end.

Fixpoint drop_chars (p : ascii -> bool) (s : string) : string :=
  match s with
  | EmptyString => EmptyString
  | String c t => if p c then drop_chars p t else String c (drop_chars p t)
  end.

Definition has_char (d : ascii) (s : string) : bool :=
  negb (Text.all_chars (fun c => negb (is_char d c)) s).

Definition is_ascii_alpha (c : ascii) : bool :=
  Text.in_range 65 90 c || Text.in_range 97 122 c.

Definition is_scheme_char (c : ascii) : bool :=
  is_ascii_alpha c || Text.in_range 48 57 c
  || is_char "+" c || is_char "-" c || is_char "." c.

Definition is_c0_or_space (c : ascii) : bool := (Text.code c <=? 32)%nat.

Definition is_unsafe (c : ascii) : bool :=
  (Text.code c =? 9)%nat || (Text.code c =? 13)%nat || (Text.code c =? 10)%nat.

Definition is_netloc_end (c : ascii) : bool :=
  is_char "/" c || is_char "?" c || is_char "#" c.

Fixpoint lstrip_c0 (s : string) : string :=
  match s with
  | EmptyString => EmptyString
  | String c t => if is_c0_or_space c then lstrip_c0 t else s
  end.

Definition tail (s : string) : string :=
  match s with
  | EmptyString => EmptyString
  | String _ t => t
  end.

Definition uses_params : list string :=
  [""; "ftp"; "hdl"; "prospero"; "http"; "imap"; "https"; "shttp"; "rtsp";
   "rtspu"; "sip"; "sips"; "mms"; "sftp"; "tel"].

(** [_splitparams]: the path up to the first [;] that follows its last [/]. *)
Fixpoint splitparams (url : string) : string * string :=
  match url with
  | EmptyString => (EmptyString, EmptyString)
  | String c t =>
      if has_char "/" t
      then let '(a, b) := splitparams t in (String c a, b)
      else let '(a, b) := break_at (is_char ";") url in (a, tail b)
  end.

Definition split_scheme (url : string) : string * string :=
  let '(pre, rest) := break_at (is_char ":") url in
  match pre, rest with
  | String c _, String _ after =>
      if is_ascii_alpha c && Text.all_chars is_scheme_char pre
      then (Text.lower pre, after)
      else (EmptyString, url)
  | _, _ => (EmptyString, url)
  end.

Definition urlparse (url : string) : result ParseResult :=
  let url := drop_chars is_unsafe (lstrip_c0 url) in
  let '(scheme, url) := split_scheme url in
  '(netloc, url) ←
    match url with
    | String "/" (String "/" rest) =>
        let '(netloc, url) := break_at is_netloc_end rest in
        if xorb (has_char "[" netloc) (has_char "]" netloc)
        then Raise (PyError "ValueError")
        else Ok (netloc, url)
    | _ => Ok (EmptyString, url)
    end;
  let '(url, fragment) := break_at (is_char "#") url in
  let '(url, query) := break_at (is_char "?") url in
  let '(url, params) :=
    if bool_decide (scheme ∈ uses_params) && has_char ";" url
    then splitparams url else (url, EmptyString) in
  Ok {| scheme := scheme; netloc := netloc; path := url;
        params := params; query := tail query; fragment := tail fragment |}.

End Urllib.

(** ** Logging and the effects of the mapper's methods *)

Inductive level := DEBUG | INFO | WARNING | ERROR.

(** One constructor per logger call of the modelled methods, with the
    values its message is built from. *)
Inductive message :=
| ExtractFailed (address : pyobj) (e : exn)
| KeywordScore (keyword url : string) (total : Q)
| MatchDetails (details : list (nat * nat * Q))
| FindingBestMatches
| EmptyUrlFound (keyword : string) (title : pyobj)
| Matched (keyword url : string) (best_score : Q)
| NoGoodMatch (keyword : string) (best_score : Q)
| Completed (matched_count total : nat)
| EmptyUrlPlaceholder (keyword : string)
| ResultsSaved (output_file : string)
| SavingFailed (e : exn).

Definition log_record : Type := level * message.

(** A method run: what it returns or raises, and what it logged. *)
Record M (A : Type) := Run { outcome : result A; logged : list log_record }.
Arguments Run {A} outcome logged.
Arguments outcome {A} m.
Arguments logged {A} m.

#[global] Instance M_ret : MRet M := λ A a, Run (Ok a) [].
#[global] Instance M_bind : MBind M := λ A B f m,
  match outcome m with
  | Ok a => let r := f a in Run (outcome r) (logged m ++ logged r)%list
  | Raise e => Run (Raise e) (logged m)
  end.

Definition lift {A} (r : result A) : M A := Run r [].

Definition log (lv : level) (msg : message) : M unit := Run (Ok tt) [(lv, msg)].

(** Python's [a > b] and [a >= b] on scores. *)
Definition Qgt_bool (a b : Q) : bool := negb (Qle_bool a b).
Definition Qge_bool (a b : Q) : bool := Qle_bool b a.

Definition dquote : ascii := Eval cbv in ascii_of_nat 34.

Module Content.
(** The values bound in the [try] block of [calculate_match_score]. *)
Record t := {
  url : string; title : string; h1 : string; h2 : string;
  meta_desc : string; meta_keywords : string; url_components : string
}.
End Content.

Module BestMatch.
(** The dictionary built at lines 196-203. *)
Record t := {
  url : string; score : Q; title : pyobj; h1 : pyobj;
  meta_description : pyobj; row_data : gmap column pyobj
}.
End BestMatch.

Inductive score_text :=
| Fixed2 (score : Q)      (* f"{score:.2f}" *)
| Literal (s : string).

Module CsvRow.
Record t := {
  keyword : string; matched_url : string; match_score : score_text;
  page_title : string; h1_heading : string; meta_description : string;
  match_quality : string
}.
End CsvRow.

(** The address aliases of lines 125 and 191, in order. *)
Definition address_keys : list column :=
  [Col "Address"; BomCol "Address";
   Col (String dquote ("Address" +:+ String dquote EmptyString));
   Col "address"; Col "URL"].

(** Lines 124-128 and 190-194: the first alias present with a true value. *)
Fixpoint first_address (row : gmap column pyobj) (keys : list column) : result string :=
  match keys with
  | [] => Ok ""
  | addr_key :: rest =>
      match row !! addr_key with
      | None => first_address row rest
      | Some v =>
          nonempty ← truth v;
          if (nonempty : bool) then Ok (Text.strip (py_str v))
          else first_address row rest
      end
  end.

(** [sum(1 for word in keyword_words if word in content)] *)
Fixpoint word_matches (keyword_words : list string) (content : string) : nat :=
  match keyword_words with
  | [] => 0
  | word :: rest =>
      (if Text.contains word content then 1 else 0) + word_matches rest content
  end.

(** The body of the loop of lines 152-165, on the running total and the
    match details. *)
Definition score_field (keyword_words : list string)
    (acc : Q * list (nat * nat * Q)) (field : string * Q) : Q * list (nat * nat * Q) :=
  let '(total_score, match_details) := acc in
  let '(content, weight) := field in
  match content with
  | EmptyString => acc
  | _ =>
      let matches := word_matches keyword_words content in
      if (0 <? matches)%nat then
        let field_score :=
          ((Z.of_nat matches # Pos.of_nat (length keyword_words)) * 10)%Q in
        let weighted_score := (field_score * weight)%Q in
        ((total_score + weighted_score)%Q,
         (match_details ++ [(matches, length keyword_words, weighted_score)])%list)
      else acc
  end.

Definition content_fields (c : Content.t) : list (string * Q) :=
  [(Content.title c, 5%Q); (Content.h1 c, 4%Q); (Content.url_components c, 3%Q);
   (Content.meta_desc c, 2%Q); (Content.h2 c, (3 # 2)%Q);
   (Content.meta_keywords c, (5 # 2)%Q)].

(** Lines 238-247. *)
Definition quality_of (score : Q) : string :=
  if Qge_bool score 40 then "Excellent"
  else if Qge_bool score 25 then "Good"
  else if Qge_bool score 15 then "Fair"
  else "Weak".

(** [(v or '')[:n]] *)
Definition or_empty_take (n : nat) (v : pyobj) : result string :=
  nonempty ← truth v;
  Ok (Text.take n (if (nonempty : bool) then py_str v else "")).

Section Mapper.

(** [urllib.parse.urlparse], as [extract_url_components] calls it. *)
Variable urlparse : string -> result ParseResult.

(** keywordmapper.py, lines 99-112 *)
Definition extract_url_components (url : string) : result string :=
  match url with
  | EmptyString => Ok ""
  | _ =>
      try_except
        (parsed ← urlparse url;
         let domain_parts :=
           Text.replace "." " "
             (Text.replace ".com" "" (Text.replace "www." "" (netloc parsed))) in
         let path_parts :=
           Text.replace "_" " "
             (Text.replace "-" " " (Text.replace "/" " " (path parsed))) in
         normalize_text (PStr (domain_parts +:+ " " +:+ path_parts)))
        (λ _, Ok "")
  end.

(** The [try] block of lines 123-134. *)
Definition extract_content (row : gmap column pyobj) : result Content.t :=
  url ← first_address row address_keys;
  title ← normalize_text (row_get row (Col "Title 1") (PStr ""));
  h1 ← normalize_text (row_get row (Col "H1-1") (PStr ""));
  h2 ← normalize_text (row_get row (Col "H2-1") (PStr ""));
  meta_desc ← normalize_text (row_get row (Col "Meta Description 1") (PStr ""));
  meta_keywords ← normalize_text (row_get row (Col "Meta Keywords 1") (PStr ""));
  url_components ← extract_url_components url;
  Ok {| Content.url := url; Content.title := title; Content.h1 := h1;
        Content.h2 := h2; Content.meta_desc := meta_desc;
        Content.meta_keywords := meta_keywords;
        Content.url_components := url_components |}.

(** keywordmapper.py, lines 114-171 *)
Definition calculate_match_score (keyword : string) (row : gmap column pyobj) : M Q :=
  keyword_normalized ← lift (normalize_text (PStr keyword));
  let keyword_words := Text.split keyword_normalized in
  match keyword_words with
  | [] => mret 0%Q
  | _ =>
      match extract_content row with
      | Raise e =>
          _ ← log WARNING (ExtractFailed (row_get row (Col "Address") (PStr "unknown")) e);
          mret 0%Q
      | Ok c =>
          let '(total_score, match_details) :=
            fold_left (score_field keyword_words) (content_fields c) (0%Q, []) in
          _ ← (if Qgt_bool total_score 0
               then _ ← log DEBUG (KeywordScore keyword (Content.url c) total_score);
                    log DEBUG (MatchDetails match_details)
               else mret tt);
          mret total_score
      end
  end.

(** The body of the loop over the rows, lines 184-212, on the loop's
    variables [best_score], [best_match] and [self.final_mappings]. *)
Definition scan_row (keyword : string)
    (st : Q * option BestMatch.t * gmap string (option BestMatch.t))
    (row : gmap column pyobj)
    : M (Q * option BestMatch.t * gmap string (option BestMatch.t)) :=
  let '(best_score, best_match, final_mappings) := st in
  score ← calculate_match_score keyword row;
  '(best_score, best_match) ←
    (if Qgt_bool score best_score then
       url ← lift (first_address row address_keys);
       let best_match :=
         {| BestMatch.url := url; BestMatch.score := score;
            BestMatch.title := row_get row (Col "Title 1") (PStr "");
            BestMatch.h1 := row_get row (Col "H1-1") (PStr "");
            BestMatch.meta_description :=
              row_get row (Col "Meta Description 1") (PStr "");
            BestMatch.row_data := row |} in
       _ ← (match url with
            | EmptyString =>
                log WARNING
                  (EmptyUrlFound keyword (row_get row (Col "Title 1") (PStr "No title")))
            | _ => mret tt
            end);
       mret (score, Some best_match)
     else mret (best_score, best_match));
  match best_match with
  | Some m =>
      if Qge_bool best_score 5 then
        _ ← log DEBUG (Matched keyword (BestMatch.url m) best_score);
        mret (best_score, best_match, <[keyword := Some m]> final_mappings)
      else
        _ ← log DEBUG (NoGoodMatch keyword best_score);
        mret (best_score, best_match, <[keyword := None]> final_mappings)
  | None =>
      _ ← log DEBUG (NoGoodMatch keyword best_score);
      mret (best_score, best_match, <[keyword := None]> final_mappings)
  end.

Fixpoint scan_rows (keyword : string) (urls_data : list (gmap column pyobj))
    (st : Q * option BestMatch.t * gmap string (option BestMatch.t))
    : M (Q * option BestMatch.t * gmap string (option BestMatch.t)) :=
  match urls_data with
  | [] => mret st
  | row :: rest => st' ← scan_row keyword st row; scan_rows keyword rest st'
  end.

(** The loop over the keywords, lines 179-212. *)
Fixpoint scan_keywords (keywords : list string) (urls_data : list (gmap column pyobj))
    (final_mappings : gmap string (option BestMatch.t))
    : M (gmap string (option BestMatch.t)) :=
  match keywords with
  | [] => mret final_mappings
  | keyword :: rest =>
      '(_, _, final_mappings) ← scan_rows keyword urls_data (0%Q, None, final_mappings);
      scan_keywords rest urls_data final_mappings
  end.

(** keywordmapper.py, lines 173-215 *)
Definition find_best_matches (keywords : list string)
    (urls_data : list (gmap column pyobj)) : M (gmap string (option BestMatch.t)) :=
  _ ← log INFO FindingBestMatches;
  final_mappings ← scan_keywords keywords urls_data ∅;
  let matched_count :=
    length (List.filter (λ kv, bool_decide (is_Some (snd kv)))
                        (map_to_list final_mappings)) in
  _ ← log INFO (Completed matched_count (length keywords));
  mret final_mappings.

End Mapper.

(** The row written for one keyword, lines 229-267. *)
Definition result_row (final_mappings : gmap string (option BestMatch.t))
    (keyword : string) : M CsvRow.t :=
  match mjoin (final_mappings !! keyword) with
  | Some mapping =>
      url ← (match BestMatch.url mapping with
             | EmptyString => _ ← log WARNING (EmptyUrlPlaceholder keyword); mret "URL_ERROR"
             | url => mret url
             end);
      let score := BestMatch.score mapping in
      let quality := quality_of score in
      page_title ← lift (or_empty_take 150 (BestMatch.title mapping));
      h1_heading ← lift (or_empty_take 100 (BestMatch.h1 mapping));
      meta_description ← lift (or_empty_take 200 (BestMatch.meta_description mapping));
      mret {| CsvRow.keyword := keyword; CsvRow.matched_url := url;
              CsvRow.match_score := Fixed2 score; CsvRow.page_title := page_title;
              CsvRow.h1_heading := h1_heading;
              CsvRow.meta_description := meta_description;
              CsvRow.match_quality := quality |}
  | None =>
      mret {| CsvRow.keyword := keyword; CsvRow.matched_url := "NO_MATCH";
              CsvRow.match_score := Literal "0.00"; CsvRow.page_title := "";
              CsvRow.h1_heading := ""; CsvRow.meta_description := "";
              CsvRow.match_quality := "None" |}
  end.

Fixpoint write_rows (final_mappings : gmap string (option BestMatch.t))
    (keywords : list string) : M (list CsvRow.t) :=
  match keywords with
  | [] => mret []
  | keyword :: rest =>
      row_data ← result_row final_mappings keyword;
      written ← write_rows final_mappings rest;
      mret (row_data :: written)
  end.

(** keywordmapper.py, lines 217-275: the rows written after the header. An
    exception is logged and raised again. *)
Definition save_results (keywords : list string)
    (final_mappings : gmap string (option BestMatch.t)) (output_file : string)
    : M (list CsvRow.t) :=
  let body :=
    written ← write_rows final_mappings keywords;
    _ ← log INFO (ResultsSaved output_file);
    mret written in
  match outcome body with
  | Ok _ => body
  | Raise e => Run (Raise e) (logged body ++ [(ERROR, SavingFailed e)])%list
  end.

(** ** Normal forms of text *)

(** A character that [normalize_text] leaves in a word: of the class [\w],
    not a separator (so not the underscore), and its own lower case. *)
Definition word_char (c : ascii) : bool :=
  Text.is_word c && negb (Text.is_sep c) && negb (Text.is_space c)
  && Ascii.eqb (Text.lower_char c) c.

(** Non-empty runs of word characters, one space between two runs. *)
Inductive words : string -> Prop :=
| words_last c : word_char c = true -> words (String c EmptyString)
| words_char c t : word_char c = true -> words t -> words (String c t)
| words_gap c t :
    word_char c = true -> words t -> words (String c (String Text.space t)).

Definition normalized (s : string) : Prop := s = EmptyString \/ words s.

(** The last character of [s] is not white space. *)
Fixpoint ends_in_word (s : string) : bool :=
  match s with
  | EmptyString => false
  | String c EmptyString => negb (Text.is_space c)
  | String _ t => ends_in_word t
  end.

(** ** Definitions used to state the properties *)

(** The words of a keyword, as lines 116-117 compute them. *)
Definition keyword_words (keyword : string) : list string :=
  match normalize_text (PStr keyword) with
  | Ok keyword_normalized => Text.split keyword_normalized
  | Raise _ => []
  end.

(** The score a run of [calculate_match_score] returns. *)
Definition score_of (urlparse : string -> result ParseResult)
    (keyword : string) (row : gmap column pyobj) : Q :=
  match outcome (calculate_match_score urlparse keyword row) with
  | Ok score => score
  | Raise _ => 0%Q
  end.

(** [s[n:]] *)
Fixpoint drop_prefix (n : nat) (s : string) : string :=
  match n, s with
  | S k, String _ t => drop_prefix k t
  | _, _ => s
  end.

(** The URL Decomposer in the words of the specification: only a leading
    [www.] is stripped from the host. *)
Definition spec_host_words (host : string) : string :=
  let host :=
    if String.prefix "www." host then drop_prefix 4 host else host in
  Text.replace "." " " (Text.replace ".com" "" host).

Definition spec_path_words (path : string) : string :=
  Text.replace "_" " " (Text.replace "-" " " (Text.replace "/" " " path)).

Definition spec_extract_url_words (urlparse : string -> result ParseResult)
    (url : string) : result string :=
  match url with
  | EmptyString => Ok ""
  | _ =>
      match urlparse url with
      | Ok parsed =>
          normalize_text
            (PStr (spec_host_words (netloc parsed) +:+ " "
                   +:+ spec_path_words (path parsed)))
      | Raise _ => Ok ""
      end
  end.

(** The Field Scorer in the words of the specification. *)
Definition spec_match_count (keyword_words : list string) (field_text : string) : nat :=
  length (List.filter (λ word, Text.contains word field_text) keyword_words).

Definition spec_field_score (keyword_words : list string) (field_text : string)
    (weight : Q) : Q :=
  match field_text with
  | EmptyString => 0
  | _ =>
      (Z.of_nat (spec_match_count keyword_words field_text)
       # Pos.of_nat (length keyword_words)) * 10 * weight
  end%Q.

Definition spec_total_score (keyword_words : list string) (c : Content.t) : Q :=
  (spec_field_score keyword_words (Content.title c) 5
   + spec_field_score keyword_words (Content.h1 c) 4
   + spec_field_score keyword_words (Content.url_components c) 3
   + spec_field_score keyword_words (Content.meta_desc c) 2
   + spec_field_score keyword_words (Content.h2 c) (3 # 2)
   + spec_field_score keyword_words (Content.meta_keywords c) (5 # 2))%Q.

(** The dictionary of lines 196-203 for a row that takes the lead. *)
Definition candidate (row : gmap column pyobj) (score : Q) : BestMatch.t :=
  {| BestMatch.url :=
       match first_address row address_keys with
       | Ok url => url
       | Raise _ => EmptyString
       end;
     BestMatch.score := score;
     BestMatch.title := row_get row (Col "Title 1") (PStr "");
     BestMatch.h1 := row_get row (Col "H1-1") (PStr "");
     BestMatch.meta_description := row_get row (Col "Meta Description 1") (PStr "");
     BestMatch.row_data := row |}.

(** [best_score] and [best_match] after one more row (lines 186-203). *)
Definition leader (urlparse : string -> result ParseResult) (keyword : string)
    (st : Q * option BestMatch.t) (row : gmap column pyobj) : Q * option BestMatch.t :=
  let score := score_of urlparse keyword row in
  if Qgt_bool score (fst st) then (score, Some (candidate row score)) else st.

(** The entry written at lines 207-211. *)
Definition accept (st : Q * option BestMatch.t) : option BestMatch.t :=
  match snd st with
  | Some m => if Qge_bool (fst st) 5 then Some m else None
  | None => None
  end.

(** The text of a cell that is a [str], and the empty text otherwise. *)
Definition cell_text (v : pyobj) : string :=
  match v with
  | PStr s => s
  | _ => EmptyString
  end.

(** The row of the result CSV in the words of the specification, for the
    entry of a keyword ([None]: unmatched). *)
Definition spec_row (entry : option BestMatch.t) (r : CsvRow.t) : Prop :=
  match entry with
  | None =>
      CsvRow.matched_url r = "NO_MATCH"
      /\ CsvRow.match_score r = Literal "0.00"
      /\ CsvRow.match_quality r = "None"
  | Some m =>
      let score := BestMatch.score m in
      (BestMatch.url m = EmptyString -> CsvRow.matched_url r = "URL_ERROR")
      /\ (BestMatch.url m <> EmptyString -> CsvRow.matched_url r = BestMatch.url m)
      /\ CsvRow.match_score r = Fixed2 score
      /\ ((40 <= score)%Q -> CsvRow.match_quality r = "Excellent")
      /\ ((25 <= score)%Q /\ (score < 40)%Q -> CsvRow.match_quality r = "Good")
      /\ ((15 <= score)%Q /\ (score < 25)%Q -> CsvRow.match_quality r = "Fair")
      /\ ((score < 15)%Q -> CsvRow.match_quality r = "Weak")
      /\ CsvRow.page_title r = Text.take 150 (cell_text (BestMatch.title m))
      /\ CsvRow.h1_heading r = Text.take 100 (cell_text (BestMatch.h1 m))
      /\ CsvRow.meta_description r
          = Text.take 200 (cell_text (BestMatch.meta_description m))
      /\ (String.length (CsvRow.page_title r) <= 150)%nat
      /\ (String.length (CsvRow.h1_heading r) <= 100)%nat
      /\ (String.length (CsvRow.meta_description r) <= 200)%nat
  end.

(** The cells that [save_results] reads from an entry are texts or [None]. *)
Definition printable (m : BestMatch.t) : Prop :=
  (exists b, truth (BestMatch.title m) = Ok b)
  /\ (exists b, truth (BestMatch.h1 m) = Ok b)
  /\ (exists b, truth (BestMatch.meta_description m) = Ok b).

(** The two calls of [main], lines 360-361: the pass over the keywords, then
    the report. *)
Definition report (urlparse : string -> result ParseResult) (keywords : list string)
    (urls_data : list (gmap column pyobj)) (output_file : string)
    : result (list CsvRow.t) :=
  match outcome (find_best_matches urlparse keywords urls_data) with
  | Ok fm => outcome (save_results keywords fm output_file)
  | Raise e => Raise e
  end.

(** ** Sample rows of an export *)

Module Sample.

Definition red_shoes : gmap column pyobj :=
  <[Col "Address" := PStr "https://site.com/red-shoes"]>
    (<[Col "Title 1" := PStr "Red Shoes Sale"]>
       (<[Col "H1-1" := PStr "Buy Red Shoes"]> ∅)).

(** The same page under a second address. *)
Definition red_shoes_copy : gmap column pyobj :=
  <[Col "Address" := PStr "https://site.com/shoes/red"]>
    (<[Col "Title 1" := PStr "Red Shoes Sale"]>
       (<[Col "H1-1" := PStr "Buy Red Shoes"]> ∅)).

Definition about : gmap column pyobj :=
  <[Col "Address" := PStr "https://site.com/about"]>
    (<[Col "Title 1" := PStr "About us"]> ∅).

(** One keyword word of four in the meta description: (1/4) * 10 * 2. *)
Definition meta_only : gmap column pyobj :=
  <[Col "Address" := PStr "https://site.com/p"]>
    (<[Col "Meta Description 1" := PStr "Alpha"]> ∅).


(** A page whose export has no address column. *)
Definition no_address : gmap column pyobj :=
  <[Col "Title 1" := PStr "Red Shoes Sale"]> ∅.

(** The word [shoes] in each of the six fields. *)
Definition all_fields : gmap column pyobj :=
  <[Col "Address" := PStr "https://shoes.org/"]>
    (<[Col "Title 1" := PStr "Shoes"]>
       (<[Col "H1-1" := PStr "Shoes"]>
          (<[Col "H2-1" := PStr "Shoes"]>
             (<[Col "Meta Description 1" := PStr "Shoes"]>
                (<[Col "Meta Keywords 1" := PStr "shoes"]> ∅))))).

End Sample.

(** ** Rows as [csv.DictReader] yields them *)

(** A cell that is a [str] or [None]. *)
Definition text_cell (v : pyobj) : bool :=
  match v with
  | PFaulty _ _ => false
  | _ => true
  end.

(** [csv.DictReader] fills a row with the texts of a line, and with [None]
    (its [restval]) for the columns a short line leaves out. *)
Definition csv_row (row : gmap column pyobj) : Prop :=
  forall key v, row !! key = Some v -> text_cell v = true.

(** [" ".join(words)] *)
Fixpoint join_words (words : list string) : string :=
  match words with
  | [] => EmptyString
  | [w] => w
  | w :: rest => w +:+ String Text.space (join_words rest)
  end.

(** The six field texts of a row that was read. *)
Definition field_texts_of (c : Content.t) : list string :=
  [Content.title c; Content.h1 c; Content.url_components c;
   Content.meta_desc c; Content.h2 c; Content.meta_keywords c].

(** ** Files and the two loaders (keywordmapper.py, lines 42-78) *)

Definition cr : ascii := Eval cbv in ascii_of_nat 13.
Definition lf : ascii := Eval cbv in ascii_of_nat 10.
Definition tab : ascii := Eval cbv in ascii_of_nat 9.
Definition comma : ascii := Eval cbv in ascii_of_nat 44.

(** What the program reaches outside itself: [read_text path] is the
    text of a file opened for reading as UTF-8 (its line ends already
    translated to the line feed) or the exception that opening or decoding
    raises; [dict_reader content delimiter] is [list(csv.DictReader(f,
    delimiter=delimiter))] over that text; [open_write path] opens a file
    for writing. *)
Record Env := {
  read_text : string -> result string;
  dict_reader : string -> ascii -> result (list (gmap column pyobj));
  open_write : string -> result unit
}.

(** The lines a text file yields when it is iterated: each one ends with
    its line feed, the last one may lack it. *)
Fixpoint file_lines (content : string) : list string :=
  match content with
  | EmptyString => []
  | String c t =>
      if Ascii.eqb c lf then String c EmptyString :: file_lines t
      else match file_lines t with
           | [] => [String c EmptyString]
           | line :: rest => String c line :: rest
           end
  end.

(** Line 47: [[line.strip().replace('\r', '') for line in f if line.strip()]] *)
Fixpoint keywords_of_lines (lines : list string) : list string :=
  match lines with
  | [] => []
  | line :: rest =>
      match Text.strip line with
      | EmptyString => keywords_of_lines rest
      | _ =>
          Text.replace (String cr EmptyString) "" (Text.strip line)
          :: keywords_of_lines rest
      end
  end.

Inductive io_message :=
| KeywordsLoaded (n : nat) (filepath : string)
| KeywordsFileNotFound (filepath : string)
| KeywordsError (e : exn)
| UrlsLoaded (n : nat) (filepath : string)
| ExportFileNotFound (filepath : string)
| ExportError (e : exn)
| ScriptFailed (e : exn).

(** A run of a loader: what it stores in the mapper, or raises, and what
    it logged. *)
Record Loaded (A : Type) := Load { loaded : result A; load_log : list (level * io_message) }.
Arguments Load {A} loaded load_log.
Arguments loaded {A} l.
Arguments load_log {A} l.

(** [except FileNotFoundError] *)
Definition is_file_not_found (e : exn) : bool :=
  match e with
  | PyError name => String.eqb name "FileNotFoundError"
  end.

(** keywordmapper.py, lines 42-54 *)
Definition load_keywords (env : Env) (filepath : string) : Loaded (list string) :=
  match read_text env filepath with
  | Ok content =>
      let keywords := keywords_of_lines (file_lines content) in
      Load (Ok keywords) [(INFO, KeywordsLoaded (length keywords) filepath)]
  | Raise e =>
      if is_file_not_found e
      then Load (Raise e) [(ERROR, KeywordsFileNotFound filepath)]
      else Load (Raise e) [(ERROR, KeywordsError e)]
  end.

(** [s.count(c)] for a character [c]. *)
Fixpoint count_char (c : ascii) (s : string) : nat :=
  match s with
  | EmptyString => 0
  | String d t => (if Ascii.eqb d c then 1 else 0) + count_char c t
  end.

(** Lines 64-66, on the sample read at line 61. *)
Definition detect_delimiter (sample : string) : ascii :=
  if Text.contains (String tab EmptyString) sample
     && (count_char comma sample <? count_char tab sample)%nat
  then tab else comma.

(** keywordmapper.py, lines 56-78 *)
Definition load_screaming_frog_data (env : Env) (filepath : string)
    : Loaded (list (gmap column pyobj)) :=
  match
    content ← read_text env filepath;
    dict_reader env content (detect_delimiter (Text.take 1024 content))
  with
  | Ok urls_data => Load (Ok urls_data) [(INFO, UrlsLoaded (length urls_data) filepath)]
  | Raise e =>
      if is_file_not_found e
      then Load (Raise e) [(ERROR, ExportFileNotFound filepath)]
      else Load (Raise e) [(ERROR, ExportError e)]
  end.

(** ** [print_summary] (keywordmapper.py, lines 277-333) *)

Inductive summary_line :=
| Blank
| Rule                                                  (* "=" * 70 *)
| Heading                                               (* KEYWORD MAPPING RESULTS *)
| TotalKeywords (n : nat)
| MatchedKeywords (n : nat)
| UnmatchedKeywords (n : Z)
| MatchRate (percent : Q)
| UniqueUrls (n : nat)
| AverageScore (score : Q)
| ScoreRange (lowest highest : Q)
| TopHeading
| TopMatch (rank : nat) (keyword url_name : string) (score : Q)
| MultiHeading (n : nat)
| MultiUrl (url_name : string) (n : nat)
| MultiKeyword (keyword : string)
| MultiMore (n : nat).

(** What a run prints, and whether it ends or raises. Standard output is
    taken to accept every line. *)
Record P (A : Type) := Out { printed : list summary_line; finished : result A }.
Arguments Out {A} printed finished.
Arguments printed {A} p.
Arguments finished {A} p.

#[global] Instance P_ret : MRet P := λ A a, Out [] (Ok a).
#[global] Instance P_bind : MBind P := λ A B f m,
  match finished m with
  | Ok a => let r := f a in Out (printed m ++ printed r)%list (finished r)
  | Raise e => Out (printed m) (Raise e)
  end.

Definition print (line : summary_line) : P unit := Out [line] (Ok tt).

Definition evaluate {A} (r : result A) : P A := Out [] r.

Fixpoint for_each {A} (body : A -> P unit) (l : list A) : P unit :=
  match l with
  | [] => mret tt
  | x :: rest => _ ← body x; for_each body rest
  end.

(** [s.split(sep)] for a character [sep]. *)
Fixpoint split_on (sep : ascii) (s : string) : list string :=
  match s with
  | EmptyString => [EmptyString]
  | String c t =>
      if Ascii.eqb c sep then EmptyString :: split_on sep t
      else match split_on sep t with
           | [] => [String c EmptyString]
           | segment :: rest => String c segment :: rest
           end
  end.

(** [l[-n]], which raises [IndexError] when [l] has fewer than [n] items. *)
Definition from_end (n : nat) (l : list string) : result string :=
  if (n <=? length l)%nat && (0 <? n)%nat
  then Ok (nth (length l - n) l EmptyString)
  else Raise (PyError "IndexError").

(** Lines 312-315 and 323-326: the name a URL is shown under. *)
Definition url_name (url : string) : result string :=
  match url with
  | EmptyString => Ok "unknown"
  | _ =>
      if Text.contains "/" url then
        last ← from_end 1 (split_on "/" url);
        match last with
        | String _ _ => Ok last
        | EmptyString =>
            before ← from_end 2 (split_on "/" url);
            match before with
            | String _ _ => Ok before
            | EmptyString => Ok url
            end
        end
      else Ok url
  end.

(** [d[url].append(keyword)] on a [defaultdict(list)], kept as the list of
    its items in the order of their insertion. *)
Fixpoint group_add (url keyword : string) (groups : list (string * list string))
    : list (string * list string) :=
  match groups with
  | [] => [(url, [keyword])]
  | (u, keywords) :: rest =>
      if String.eqb u url then (u, keywords ++ [keyword])%list :: rest
      else (u, keywords) :: group_add url keyword rest
  end.

(** Lines 283-286, over the items of [self.final_mappings]. *)
Definition url_keyword_count (items : list (string * option BestMatch.t))
    : list (string * list string) :=
  fold_left
    (λ groups item,
       match snd item with
       | Some mapping => group_add (BestMatch.url mapping) (fst item) groups
       | None => groups
       end)
    items [].

(** [[(k, v) for k, v in self.final_mappings.items() if v]] *)
Definition scored_items (items : list (string * option BestMatch.t))
    : list (string * BestMatch.t) :=
  omap (λ item, match snd item with
                | Some mapping => Some (fst item, mapping)
                | None => None
                end) items.

(** [l.sort(key=..., reverse=True)]: a stable sort, greatest key first;
    [above y x] says that the key of [y] is strictly greater than that of
    [x]. *)
Fixpoint insert_desc {A} (above : A -> A -> bool) (x : A) (l : list A) : list A :=
  match l with
  | [] => [x]
  | y :: rest => if above y x then y :: insert_desc above x rest else x :: y :: rest
  end.

Fixpoint sort_desc {A} (above : A -> A -> bool) (l : list A) : list A :=
  match l with
  | [] => []
  | x :: rest => insert_desc above x (sort_desc above rest)
  end.

(** [min(scores)] and [max(scores)] of a non-empty list. *)
Definition min_score (first : Q) (rest : list Q) : Q :=
  fold_left (λ a b, if Qgt_bool a b then b else a) rest first.
Definition max_score (first : Q) (rest : list Q) : Q :=
  fold_left (λ a b, if Qgt_bool b a then b else a) rest first.

(** Lines 310-316: one line of the top list. *)
Definition print_top_match (entry : nat * (string * BestMatch.t)) : P unit :=
  let '(rank, (keyword, mapping)) := entry in
  name ← evaluate (url_name (BestMatch.url mapping));
  print (TopMatch rank keyword name (BestMatch.score mapping)).

(** Lines 322-331: one URL with several keywords. *)
Definition print_multi_url (group : string * list string) : P unit :=
  let '(url, keywords) := group in
  name ← evaluate (url_name url);
  _ ← print (MultiUrl name (length keywords));
  _ ← for_each (λ keyword, print (MultiKeyword keyword)) (firstn 3 keywords);
  if (3 <? length keywords)%nat then print (MultiMore (length keywords - 3))
  else mret tt.

(** Lines 307-310: the matches by falling score, ten at most. *)
Definition top_matches (items : list (string * option BestMatch.t))
    : list (string * BestMatch.t) :=
  firstn 10
    (sort_desc (λ y x, Qgt_bool (BestMatch.score (snd y)) (BestMatch.score (snd x)))
               (scored_items items)).

(** Line 319: the URLs that more than one keyword chose. *)
Definition multi_keyword_urls (items : list (string * option BestMatch.t))
    : list (string * list string) :=
  List.filter (λ group, (1 <? length (snd group))%nat) (url_keyword_count items).

(** [self.final_mappings] enters through its items, in the order a [dict]
    keeps them. *)
Definition print_summary (keywords : list string)
    (items : list (string * option BestMatch.t)) : P unit :=
  let total_keywords := length keywords in
  let matched_keywords := length (scored_items items) in
  let groups := url_keyword_count items in
  let scores := map (λ item, BestMatch.score (snd item)) (scored_items items) in
  let avg_score :=
    match scores with
    | [] => 0%Q
    | _ => (fold_left Qplus scores 0 / inject_Z (Z.of_nat (length scores)))%Q
    end in
  _ ← for_each print
        [Blank; Rule; Heading; Rule; TotalKeywords total_keywords;
         MatchedKeywords matched_keywords;
         UnmatchedKeywords (Z.of_nat total_keywords - Z.of_nat matched_keywords)];
  rate ← evaluate
           (match total_keywords with
            | O => Raise (PyError "ZeroDivisionError")
            | _ => Ok ((Z.of_nat matched_keywords # Pos.of_nat total_keywords) * 100)%Q
            end);
  _ ← for_each print
        [MatchRate rate; UniqueUrls (length groups); AverageScore avg_score];
  _ ← (match scores with
       | [] => mret tt
       | first :: rest => print (ScoreRange (min_score first rest) (max_score first rest))
       end);
  _ ← (if (0 <? matched_keywords)%nat then
         _ ← print TopHeading;
         for_each print_top_match
           (combine (seq 1 (length (top_matches items))) (top_matches items))
       else mret tt);
  _ ← (match multi_keyword_urls items with
       | [] => mret tt
       | _ =>
           _ ← print (MultiHeading (length (multi_keyword_urls items)));
           for_each print_multi_url
             (firstn 5 (sort_desc (λ y x, (length (snd x) <? length (snd y))%nat)
                                  (multi_keyword_urls items)))
       end);
  print Rule.

(** The items of the store a run of [find_best_matches] leaves, in the
    order of a [dict]: that of the first assignment to each key, which is
    that of the first occurrence of each keyword in the list. *)
Fixpoint dict_items (keywords : list string) (seen : list string)
    (fm : gmap string (option BestMatch.t)) : list (string * option BestMatch.t) :=
  match keywords with
  | [] => []
  | keyword :: rest =>
      if bool_decide (keyword ∈ seen) then dict_items rest seen fm
      else match fm !! keyword with
           | Some entry => (keyword, entry) :: dict_items rest (keyword :: seen) fm
           | None => dict_items rest (keyword :: seen) fm
           end
  end.

(** ** [main] (keywordmapper.py, lines 336-366) *)

(** The parsed command line. *)
Record Args := {
  keywords_file : string; screaming_frog_file : string;
  output_file : string; log_level : string
}.

Definition default_args : Args :=
  {| keywords_file := "keywords.txt"; screaming_frog_file := "internal_all.csv";
     output_file := "keyword_mappings_final.csv"; log_level := "INFO" |}.

(** What a run of the script does, in order. A call of the logger is
    recorded whatever level the logger is set to; [--log-level] only
    decides which of the records are shown. *)
Inductive event :=
| IoLogged (record : level * io_message)
| MapperLogged (record : log_record)
| Printed (line : summary_line)
| FileWritten (path : string) (rows : list CsvRow.t).

Record Script (A : Type) := Step { value : result A; events : list event }.
Arguments Step {A} value events.
Arguments value {A} s.
Arguments events {A} s.

#[global] Instance Script_ret : MRet Script := λ A a, Step (Ok a) [].
#[global] Instance Script_bind : MBind Script := λ A B f m,
  match value m with
  | Ok a => let r := f a in Step (value r) (events m ++ events r)%list
  | Raise e => Step (Raise e) (events m)
  end.

Definition of_loader {A} (l : Loaded A) : Script A :=
  Step (loaded l) (map IoLogged (load_log l)).
Definition of_mapper {A} (m : M A) : Script A :=
  Step (outcome m) (map MapperLogged (logged m)).
Definition of_printer {A} (p : P A) : Script A :=
  Step (finished p) (map Printed (printed p)).

(** [save_results] with the file it opens: the rows are written, the file
    is closed and the success is logged; an exception, of [open] or of a
    row, is logged and raised again (lines 273-275). The partial file that
    a failure leaves is not recorded, and writing to the open file is taken
    to succeed. *)
Definition save_results_to (env : Env) (keywords : list string)
    (final_mappings : gmap string (option BestMatch.t)) (path : string) : Script unit :=
  match open_write env path with
  | Raise e => Step (Raise e) [MapperLogged (ERROR, SavingFailed e)]
  | Ok _ =>
      let writing := write_rows final_mappings keywords in
      match outcome writing with
      | Ok rows =>
          Step (Ok tt)
            (map MapperLogged (logged writing)
             ++ [FileWritten path rows; MapperLogged (INFO, ResultsSaved path)])%list
      | Raise e =>
          Step (Raise e)
            (map MapperLogged (logged writing)
             ++ [MapperLogged (ERROR, SavingFailed e)])%list
      end
  end.

(** The exit status and the events of a run of [main]. *)
Definition main (urlparse : string -> result ParseResult) (env : Env) (args : Args)
    : Z * list event :=
  let script :=
    keywords ← of_loader (load_keywords env (keywords_file args));
    urls_data ← of_loader (load_screaming_frog_data env (screaming_frog_file args));
    final_mappings ← of_mapper (find_best_matches urlparse keywords urls_data);
    _ ← save_results_to env keywords final_mappings (output_file args);
    of_printer (print_summary keywords (dict_items keywords [] final_mappings)) in
  match value script with
  | Ok _ => (0%Z, events script)
  | Raise e => (1%Z, (events script ++ [IoLogged (ERROR, ScriptFailed e)])%list)
  end.

(** A file system for the worked examples: two files and a writable
    directory; the reader of the export is not consulted for its text. *)
Definition sample_env (keywords_text : string) (urls_data : list (gmap column pyobj)) : Env :=
  {| read_text := λ path,
       if String.eqb path "keywords.txt" then Ok keywords_text
       else if String.eqb path "internal_all.csv" then Ok "Address,Title 1"
       else Raise (PyError "FileNotFoundError");
     dict_reader := λ _ _, Ok urls_data;
     open_write := λ _, Ok tt |}.

(** The order of a sort by falling [key]: [key_above key] is the test the
    sort makes, [key_order key a b] says that [a] may stand before [b]. *)
Definition key_above {A} (key : A -> Q) (y x : A) : bool := Qgt_bool (key y) (key x).
Definition key_order {A} (key : A -> Q) (a b : A) : Prop := (key b <= key a)%Q.


(** * Properties *)

(** ** Worked examples *)

Example urlparse_full_url :
  Urllib.urlparse "https://www.example.com/shop/red-shoes;v=1?q=a#top"
  = Ok {| scheme := "https"; netloc := "www.example.com"; path := "/shop/red-shoes";
          params := "v=1"; query := "q=a"; fragment := "top" |}.
Proof. vm_compute. reflexivity. Qed.
Example urlparse_open_bracket :
  Urllib.urlparse "http://[::1/x" = Raise (PyError "ValueError").
Proof. vm_compute. reflexivity. Qed.
Example urlparse_relative_path :
  Urllib.urlparse "shop/red-shoes"
  = Ok {| scheme := ""; netloc := ""; path := "shop/red-shoes";
          params := ""; query := ""; fragment := "" |}.
Proof. vm_compute. reflexivity. Qed.

Example normalize_text_separators :
  normalize_text (PStr "Foo-Bar_Baz") = Ok "foo bar baz"
  /\ normalize_text (PStr "foo bar baz") = Ok "foo bar baz".
Proof. split; reflexivity. Qed.

Example normalize_text_punctuation :
  normalize_text (PStr "  Red,  Shoes!! & -- more__") = Ok "red shoes more".
Proof. reflexivity. Qed.

Example split_words : Text.split " a  bc d " = ["a"; "bc"; "d"].
Proof. reflexivity. Qed.

Example replace_single_pass : Text.replace "www." "" "wwwwww.." = "www.".
Proof. reflexivity. Qed.

Example replace_no_overlap : Text.replace "aa" "b" "aaa" = "ba".
Proof. reflexivity. Qed.

Example extract_url_components_shop :
  extract_url_components Urllib.urlparse "https://www.example.com/shop/red-shoes"
  = Ok "example shop red shoes".
Proof. vm_compute. reflexivity. Qed.

(** The end-to-end example of the specification: 50 + 40 + 30. *)
Example score_red_shoes :
  (score_of Urllib.urlparse "red shoes" Sample.red_shoes == 120)%Q.
Proof. vm_compute. reflexivity. Qed.

(** Keyword words count with their multiplicity: two of three. *)
Example score_repeated_word :
  keyword_words "red red hat" = ["red"; "red"; "hat"]
  /\ spec_match_count (keyword_words "red red hat") "red shoes sale" = 2%nat.
Proof. split; vm_compute; reflexivity. Qed.

(** ** Characters *)

Ltac each_char c :=
  destruct c as [[] [] [] [] [] [] [] []]; vm_compute; try reflexivity; try discriminate.

Lemma lower_char_class c :
  Text.is_sep (Text.lower_char c)
  || (negb (Text.is_sep (Text.lower_char c))
      && Ascii.eqb (Text.lower_char (Text.lower_char c)) (Text.lower_char c)) = true.
Proof. each_char c. Qed.

Lemma special_or_mid c :
  negb (Text.is_sep c) && Ascii.eqb (Text.lower_char c) c = true ->
  (let d := if Text.is_special c then Text.space else c in
   word_char d || Text.is_space d) = true.
Proof. each_char c. Qed.

Lemma word_char_not_space c : word_char c = true -> Text.is_space c = false.
Proof. each_char c. Qed.

Lemma word_char_not_sep c : word_char c = true -> Text.is_sep c = false.
Proof. each_char c. Qed.

Lemma word_char_not_special c : word_char c = true -> Text.is_special c = false.
Proof. each_char c. Qed.

Lemma word_char_lower c : word_char c = true -> Text.lower_char c = c.
Proof. each_char c. Qed.

Lemma space_is_space c : Text.is_space c = true -> Text.is_special c = false.
Proof. each_char c. Qed.

(** ** The stages of [clean_text] *)

Lemma all_chars_lower x :
  Text.all_chars
    (λ c, Text.is_sep c || (negb (Text.is_sep c) && Ascii.eqb (Text.lower_char c) c))
    (Text.lower x) = true.
Proof.
  induction x as [|c t IH]; simpl; [reflexivity|].
  rewrite IH, lower_char_class. reflexivity.
Qed.

Lemma all_chars_sub_runs (p q : ascii -> bool) s :
  q Text.space = true ->
  Text.all_chars (λ c, p c || q c) s = true ->
  Text.all_chars q (Text.sub_runs p s) = true.
Proof.
  intros Hsp. induction s as [|c t IH]; [reflexivity|].
  intros H. apply andb_prop in H as [Hc Ht]. specialize (IH Ht).
  cbn [Text.sub_runs]. destruct (p c) eqn:Hp.
  - destruct t as [|d u]; [simpl; rewrite Hsp; reflexivity|].
    destruct (p d); [exact IH|].
    cbn [Text.all_chars]. rewrite Hsp. exact IH.
  - cbn [Text.all_chars]. simpl in Hc. rewrite Hc. exact IH.
Qed.

Lemma all_chars_sub_each (p q r : ascii -> bool) s :
  (forall c, q c = true -> r (if p c then Text.space else c) = true) ->
  Text.all_chars q s = true ->
  Text.all_chars r (Text.sub_each p s) = true.
Proof.
  intros Hq. induction s as [|c t IH]; [reflexivity|].
  intros H. apply andb_prop in H as [Hc Ht]. simpl.
  rewrite (Hq _ Hc). exact (IH Ht).
Qed.

Lemma all_chars_lstrip (q : ascii -> bool) s :
  Text.all_chars q s = true -> Text.all_chars q (Text.lstrip s) = true.
Proof.
  induction s as [|c t IH]; [reflexivity|]. intros H. simpl.
  destruct (Text.is_space c); [|exact H].
  apply andb_prop in H as [_ Ht]. exact (IH Ht).
Qed.

Lemma all_chars_rstrip (q : ascii -> bool) s :
  Text.all_chars q s = true -> Text.all_chars q (Text.rstrip s) = true.
Proof.
  induction s as [|c t IH]; [reflexivity|]. intros H.
  apply andb_prop in H as [Hc Ht]. specialize (IH Ht). simpl.
  destruct (Text.rstrip t) as [|d u].
  - destruct (Text.is_space c); simpl; [reflexivity|]. rewrite Hc. reflexivity.
  - cbn [Text.all_chars] in *. rewrite Hc. exact IH.
Qed.

Lemma lstrip_head s :
  match Text.lstrip s with
  | EmptyString => True
  | String c _ => Text.is_space c = false
  end.
Proof.
  induction s as [|c t IH]; simpl; [exact I|].
  destruct (Text.is_space c) eqn:Hc; [exact IH|exact Hc].
Qed.

Lemma rstrip_head c t :
  Text.rstrip (String c t) = EmptyString \/ exists u, Text.rstrip (String c t) = String c u.
Proof.
  simpl. destruct (Text.rstrip t).
  - destruct (Text.is_space c); [left|right; exists EmptyString]; reflexivity.
  - right. eexists. reflexivity.
Qed.

Lemma rstrip_ends s :
  Text.rstrip s = EmptyString \/ ends_in_word (Text.rstrip s) = true.
Proof.
  induction s as [|c t IH]; [left; reflexivity|]. simpl.
  destruct (Text.rstrip t) as [|d u] eqn:Hr.
  - destruct (Text.is_space c) eqn:Hc; [left; reflexivity|].
    right. simpl. rewrite Hc. reflexivity.
  - right. destruct IH as [IH|IH]; [discriminate|]. exact IH.
Qed.

(** After [strip], the text is empty or runs from a word character to a
    word character. *)
Lemma strip_shape s :
  Text.strip s = EmptyString
  \/ exists c t, Text.strip s = String c t /\ Text.is_space c = false
                 /\ ends_in_word (String c t) = true.
Proof.
  unfold Text.strip. pose proof (lstrip_head s) as Hh.
  destruct (Text.lstrip s) as [|c t]; [left; reflexivity|].
  destruct (rstrip_head c t) as [He|[u Hu]]; [left; exact He|].
  right. exists c, u. split; [exact Hu|]. split; [exact Hh|].
  destruct (rstrip_ends (String c t)) as [He|He]; [congruence|].
  rewrite Hu in He. exact He.
Qed.

Lemma words_head s : words s -> exists c t, s = String c t /\ word_char c = true.
Proof. intros H. destruct H; eauto. Qed.

(** Collapsing the white space of a text that ends in a word character. *)
Lemma sub_runs_space_words s :
  Text.all_chars (λ c, word_char c || Text.is_space c) s = true ->
  ends_in_word s = true ->
  match s with
  | EmptyString => True
  | String c _ =>
      if Text.is_space c
      then exists w, Text.sub_runs Text.is_space s = String Text.space w /\ words w
      else words (Text.sub_runs Text.is_space s)
  end.
Proof.
  induction s as [|c t IH]; [intros; exact I|].
  intros Hall Hend. apply andb_prop in Hall as [Hc Ht].
  destruct t as [|d u].
  - simpl in Hend. apply negb_true_iff in Hend. rewrite Hend.
    simpl. rewrite Hend. apply words_last.
    rewrite Hend, orb_false_r in Hc. exact Hc.
  - specialize (IH Ht Hend). cbv beta iota in IH.
    change (Text.sub_runs Text.is_space (String c (String d u)))
      with (if Text.is_space c
            then if Text.is_space d
                 then Text.sub_runs Text.is_space (String d u)
                 else String Text.space (Text.sub_runs Text.is_space (String d u))
            else String c (Text.sub_runs Text.is_space (String d u))).
    set (r := Text.sub_runs Text.is_space (String d u)) in *.
    destruct (Text.is_space c) eqn:Esc; destruct (Text.is_space d) eqn:Esd.
    + exact IH.
    + eexists. split; [reflexivity|exact IH].
    + rewrite orb_false_r in Hc. destruct IH as [w [Hw Hws]].
      rewrite Hw. apply words_gap; assumption.
    + rewrite orb_false_r in Hc. apply words_char; assumption.
Qed.

Lemma clean_text_normalized x : normalized (clean_text x).
Proof.
  unfold clean_text, normalized.
  set (mid := Text.sub_each Text.is_special (Text.sub_runs Text.is_sep (Text.lower x))).
  assert (Hmid : Text.all_chars (λ c, word_char c || Text.is_space c) mid = true).
  { apply all_chars_sub_each
      with (q := λ c, negb (Text.is_sep c) && Ascii.eqb (Text.lower_char c) c).
    - intros c Hc. exact (special_or_mid c Hc).
    - apply all_chars_sub_runs; [reflexivity|]. apply all_chars_lower. }
  assert (Hstrip : Text.all_chars (λ c, word_char c || Text.is_space c) (Text.strip mid) = true).
  { apply all_chars_rstrip, all_chars_lstrip, Hmid. }
  destruct (strip_shape mid) as [He|[c [t [He [Hc Hend]]]]].
  - left. rewrite He. reflexivity.
  - right. rewrite He in *.
    pose proof (sub_runs_space_words _ Hstrip Hend) as H. cbv beta iota in H.
    rewrite Hc in H. exact H.
Qed.

(** ** A normalised text is a fixed point of every stage *)

Lemma words_lower s : words s -> Text.lower s = s.
Proof.
  induction 1 as [c Hc|c t Hc _ IH|c t Hc _ IH]; simpl;
    rewrite ?IH, (word_char_lower c Hc); reflexivity.
Qed.

Lemma words_sub_sep s : words s -> Text.sub_runs Text.is_sep s = s.
Proof.
  induction 1 as [c Hc|c t Hc _ IH|c t Hc _ IH]; cbn [Text.sub_runs];
    rewrite (word_char_not_sep c Hc).
  - reflexivity.
  - rewrite IH. reflexivity.
  - change (Text.is_sep Text.space) with false. cbv iota. rewrite IH. reflexivity.
Qed.

Lemma words_sub_special s : words s -> Text.sub_each Text.is_special s = s.
Proof.
  induction 1 as [c Hc|c t Hc _ IH|c t Hc _ IH]; cbn [Text.sub_each];
    rewrite (word_char_not_special c Hc), ?IH; reflexivity.
Qed.

Lemma words_rstrip s : words s -> Text.rstrip s = s.
Proof.
  induction 1 as [c Hc|c t Hc Ht IH|c t Hc Ht IH]; cbn [Text.rstrip].
  - rewrite (word_char_not_space c Hc). reflexivity.
  - rewrite IH. destruct (words_head _ Ht) as [d [u [-> _]]]. reflexivity.
  - rewrite IH. destruct (words_head _ Ht) as [d [u [-> _]]]. reflexivity.
Qed.

Lemma words_strip s : words s -> Text.strip s = s.
Proof.
  intros H. unfold Text.strip.
  destruct (words_head _ H) as [c [t [-> Hc]]].
  cbn [Text.lstrip]. rewrite (word_char_not_space c Hc).
  apply words_rstrip, H.
Qed.

Lemma words_sub_space s : words s -> Text.sub_runs Text.is_space s = s.
Proof.
  induction 1 as [c Hc|c t Hc Ht IH|c t Hc Ht IH]; cbn [Text.sub_runs];
    rewrite (word_char_not_space c Hc).
  - reflexivity.
  - rewrite IH. reflexivity.
  - change (Text.is_space Text.space) with true. cbv iota.
    destruct (words_head _ Ht) as [d [u [-> Hd]]].
    rewrite (word_char_not_space d Hd). rewrite IH. reflexivity.
Qed.

Lemma clean_text_fixed s : words s -> clean_text s = s.
Proof.
  intros H. unfold clean_text.
  rewrite (words_lower s H), (words_sub_sep s H), (words_sub_special s H),
    (words_strip s H).
  apply words_sub_space, H.
Qed.

Lemma normalize_text_str x :
  normalize_text (PStr x)
  = Ok (match x with EmptyString => EmptyString | _ => clean_text x end).
Proof. destruct x; reflexivity. Qed.

(** ** [str.replace] *)

Lemma prefix_app old s : String.prefix old (old +:+ s) = true.
Proof.
  induction old as [|c o IH]; simpl; [destruct s; reflexivity|].
  destruct (ascii_dec c c); [exact IH|congruence].
Qed.

Lemma replace_go_skip old new o s :
  Text.replace_go old new (String.length o) (o +:+ s) = Text.replace_go old new 0 s.
Proof. induction o as [|c o IH]; simpl; [reflexivity|exact IH]. Qed.

(** An occurrence at the head is replaced, and the pass goes on behind it. *)
Lemma replace_hit old new s :
  old <> EmptyString ->
  Text.replace old new (old +:+ s) = new +:+ Text.replace old new s.
Proof.
  intros Hne. destruct old as [|c o]; [congruence|].
  unfold Text.replace.
  change (String c o +:+ s) with (String c (o +:+ s)).
  cbn [Text.replace_go].
  change (String c (o +:+ s)) with (String c o +:+ s).
  rewrite prefix_app, replace_go_skip. reflexivity.
Qed.

(** Without an occurrence at the head, the first character is kept. *)
Lemma replace_miss old new c s :
  String.prefix old (String c s) = false ->
  Text.replace old new (String c s) = String c (Text.replace old new s).
Proof. intros H. unfold Text.replace. cbn [Text.replace_go]. rewrite H. reflexivity. Qed.

Lemma replace_empty old new :
  old <> EmptyString -> Text.replace old new EmptyString = EmptyString.
Proof. intros H. destruct old; [congruence|reflexivity]. Qed.

(** ** [extract_url_components] *)

Lemma normalize_text_str_ok x : exists y, normalize_text (PStr x) = Ok y.
Proof. rewrite normalize_text_str. eauto. Qed.

Lemma extract_url_components_ok urlparse url :
  exists s, extract_url_components urlparse url = Ok s.
Proof.
  unfold extract_url_components. destruct url as [|c t]; [eauto|].
  destruct (urlparse (String c t)) as [p|e]; simpl; [|eauto].
  rewrite normalize_text_str. simpl. eauto.
Qed.

(** ** Runs *)

Lemma outcome_bind {A B} (m : M A) (f : A -> M B) :
  outcome (m ≫= f)
  = match outcome m with
    | Ok a => outcome (f a)
    | Raise e => Raise e
    end.
Proof. unfold mbind, M_bind. destruct (outcome m); reflexivity. Qed.

(** ** [calculate_match_score] *)

Lemma score_empty_keyword urlparse keyword row :
  keyword_words keyword = [] ->
  calculate_match_score urlparse keyword row = Run (Ok 0%Q) [].
Proof.
  unfold keyword_words, calculate_match_score.
  rewrite normalize_text_str. intros H.
  cbn [lift mbind M_bind outcome logged]. rewrite H. reflexivity.
Qed.

Lemma score_extract_failed urlparse keyword row e :
  keyword_words keyword <> [] ->
  extract_content urlparse row = Raise e ->
  calculate_match_score urlparse keyword row
  = Run (Ok 0%Q)
        [(WARNING, ExtractFailed (row_get row (Col "Address") (PStr "unknown")) e)].
Proof.
  unfold keyword_words, calculate_match_score.
  rewrite normalize_text_str. intros Hkw He.
  cbn [lift mbind M_bind outcome logged].
  destruct (Text.split _) as [|w ws]; [congruence|].
  rewrite He. reflexivity.
Qed.

Lemma score_extracted urlparse keyword row c :
  keyword_words keyword <> [] ->
  extract_content urlparse row = Ok c ->
  outcome (calculate_match_score urlparse keyword row)
  = Ok (fst (fold_left (score_field (keyword_words keyword)) (content_fields c) (0%Q, []))).
Proof.
  unfold keyword_words, calculate_match_score.
  rewrite normalize_text_str. intros Hkw He.
  cbn [lift mbind M_bind outcome logged].
  destruct (Text.split _) as [|w ws] eqn:Hs; [congruence|].
  rewrite He.
  destruct (fold_left _ _ _) as [total details].
  cbn [outcome fst]. rewrite outcome_bind.
  destruct (Qgt_bool total 0); reflexivity.
Qed.

Lemma word_matches_count ws content :
  word_matches ws content = spec_match_count ws content.
Proof.
  unfold spec_match_count. induction ws as [|w ws IH]; [reflexivity|].
  simpl. rewrite IH. destruct (Text.contains w content); reflexivity.
Qed.

Lemma spec_match_count_le ws content :
  (spec_match_count ws content <= length ws)%nat.
Proof.
  unfold spec_match_count. induction ws as [|w ws IH]; simpl; [lia|].
  destruct (Text.contains w content); simpl; lia.
Qed.

Lemma score_field_total ws t d content weight :
  (fst (score_field ws (t, d) (content, weight))
   == t + spec_field_score ws content weight)%Q.
Proof.
  unfold score_field, spec_field_score. rewrite word_matches_count.
  destruct content as [|c s]; [cbn [fst]; ring|].
  destruct (0 <? spec_match_count ws (String c s))%nat eqn:Hm; cbn [fst].
  - reflexivity.
  - apply Nat.ltb_ge in Hm.
    assert (H0 : spec_match_count ws (String c s) = 0%nat) by lia.
    rewrite H0. change (Z.of_nat 0) with 0%Z.
    assert (Hz : (0 # Pos.of_nat (length ws) == 0)%Q) by reflexivity.
    rewrite Hz. ring.
Qed.

Lemma fold_score_total ws fields t d :
  (fst (fold_left (score_field ws) fields (t, d))
   == t + fold_right (λ f acc, spec_field_score ws (fst f) (snd f) + acc) 0 fields)%Q.
Proof.
  revert t d. induction fields as [|[content weight] fields IH]; intros t d.
  - simpl. ring.
  - cbn [fold_left fold_right fst snd].
    destruct (score_field ws (t, d) (content, weight)) as [t' d'] eqn:Hs.
    rewrite IH.
    pose proof (score_field_total ws t d content weight) as Ht.
    rewrite Hs in Ht. cbn [fst] in Ht. rewrite Ht. ring.
Qed.

Lemma fold_content_fields ws c :
  (fst (fold_left (score_field ws) (content_fields c) (0, [])) == spec_total_score ws c)%Q.
Proof.
  rewrite fold_score_total. unfold content_fields, spec_total_score.
  cbn [fold_right fst snd]. ring.
Qed.

Lemma spec_field_score_bounds ws content weight :
  (0 <= weight)%Q ->
  (0 <= spec_field_score ws content weight
   /\ spec_field_score ws content weight <= 10 * weight)%Q.
Proof.
  intros Hw. unfold spec_field_score. destruct content as [|c s]; [lra|].
  pose proof (spec_match_count_le ws (String c s)) as Hle.
  set (m := spec_match_count ws (String c s)) in *.
  assert (H0 : (0 <= Z.of_nat m # Pos.of_nat (length ws))%Q).
  { unfold Qle. simpl. lia. }
  assert (H1 : (Z.of_nat m # Pos.of_nat (length ws) <= 1)%Q).
  { unfold Qle. simpl. destruct (length ws) as [|n] eqn:Hn; [simpl; lia|].
    rewrite <- Hn. rewrite Z.mul_1_r, Z.mul_1_l.
    assert (Z.pos (Pos.of_nat (length ws)) = Z.of_nat (length ws)) as ->; lia. }
  split; nra.
Qed.

Lemma spec_total_score_bounds ws c :
  (0 <= spec_total_score ws c /\ spec_total_score ws c <= 180)%Q.
Proof.
  unfold spec_total_score.
  pose proof (spec_field_score_bounds ws (Content.title c) 5).
  pose proof (spec_field_score_bounds ws (Content.h1 c) 4).
  pose proof (spec_field_score_bounds ws (Content.url_components c) 3).
  pose proof (spec_field_score_bounds ws (Content.meta_desc c) 2).
  pose proof (spec_field_score_bounds ws (Content.h2 c) (3 # 2)).
  pose proof (spec_field_score_bounds ws (Content.meta_keywords c) (5 # 2)).
  lra.
Qed.

(** Whatever the keyword and the row, the run returns a score, and the
    score lies between 0 and 180. *)
Lemma score_of_outcome urlparse keyword row :
  outcome (calculate_match_score urlparse keyword row)
  = Ok (score_of urlparse keyword row)
  /\ (0 <= score_of urlparse keyword row <= 180)%Q.
Proof.
  unfold score_of.
  destruct (keyword_words keyword) as [|w ws] eqn:Hkw.
  - rewrite (score_empty_keyword urlparse keyword row Hkw). cbn [outcome].
    split; [reflexivity|lra].
  - assert (Hne : keyword_words keyword <> []) by congruence.
    destruct (extract_content urlparse row) as [c|e] eqn:He.
    + rewrite (score_extracted urlparse keyword row c Hne He).
      split; [reflexivity|].
      rewrite fold_content_fields. apply spec_total_score_bounds.
    + rewrite (score_extract_failed urlparse keyword row e Hne He). cbn [outcome].
      split; [reflexivity|lra].
Qed.

(** ** Substrings *)

Lemma prefix_spec w s : String.prefix w s = true <-> exists b, s = w +:+ b.
Proof.
  revert s. induction w as [|c w IH]; intros s.
  - split; [intros _; exists s; reflexivity|intros _; destruct s; reflexivity].
  - destruct s as [|d s]; simpl.
    + split; [discriminate|intros [b Hb]; discriminate].
    + destruct (ascii_dec c d) as [->|Hne].
      * rewrite IH. split; intros [b Hb]; exists b; [rewrite Hb; reflexivity|].
        injection Hb as Hb. exact Hb.
      * split; [discriminate|intros [b Hb]; injection Hb as Hc _; congruence].
Qed.

Lemma contains_spec w s :
  Text.contains w s = true <-> exists a b, s = a +:+ w +:+ b.
Proof.
  induction s as [|d s IH].
  - cbn [Text.contains]. rewrite orb_false_r, prefix_spec. split.
    + intros [b Hb]. exists EmptyString, b. exact Hb.
    + intros [a [b Hb]]. destruct a; [exists b; exact Hb|discriminate].
  - cbn [Text.contains]. rewrite orb_true_iff, prefix_spec, IH. split.
    + intros [[b Hb]|[a [b Hb]]].
      * exists EmptyString, b. exact Hb.
      * exists (String d a), b. rewrite Hb. reflexivity.
    + intros [a [b Hb]]. destruct a as [|c a].
      * left. exists b. exact Hb.
      * right. injection Hb as _ Hb. exists a, b. exact Hb.
Qed.

(** ** Comparisons of scores *)

Lemma Qgt_bool_spec a b : Qgt_bool a b = true <-> (b < a)%Q.
Proof.
  unfold Qgt_bool. rewrite negb_true_iff. split.
  - intros H. apply Qnot_le_lt. intros Hle. apply Qle_bool_iff in Hle. congruence.
  - intros H. destruct (Qle_bool a b) eqn:E; [|reflexivity].
    apply Qle_bool_iff in E. apply Qlt_not_le in H. contradiction.
Qed.

Lemma Qgt_bool_false a b : Qgt_bool a b = false <-> (a <= b)%Q.
Proof.
  unfold Qgt_bool. rewrite negb_false_iff. apply Qle_bool_iff.
Qed.

Lemma Qge_bool_spec a b : Qge_bool a b = true <-> (b <= a)%Q.
Proof. unfold Qge_bool. apply Qle_bool_iff. Qed.

Lemma Qge_bool_false a b : Qge_bool a b = false <-> (a < b)%Q.
Proof.
  unfold Qge_bool. split.
  - intros H. apply Qnot_le_lt. intros Hle. apply Qle_bool_iff in Hle. congruence.
  - intros H. destruct (Qle_bool b a) eqn:E; [|reflexivity].
    apply Qle_bool_iff in E. apply Qlt_not_le in H. contradiction.
Qed.

(** ** The content of a row *)

Lemma normalize_text_truth v t :
  normalize_text v = Ok t -> exists b, truth v = Ok b.
Proof. unfold normalize_text. destruct (truth v); [eauto|discriminate]. Qed.

Lemma extract_content_inv urlparse row c :
  extract_content urlparse row = Ok c ->
  first_address row address_keys = Ok (Content.url c)
  /\ (exists b, truth (row_get row (Col "Title 1") (PStr "")) = Ok b)
  /\ (exists b, truth (row_get row (Col "H1-1") (PStr "")) = Ok b)
  /\ (exists b, truth (row_get row (Col "Meta Description 1") (PStr "")) = Ok b).
Proof.
  unfold extract_content.
  destruct (first_address row address_keys) as [url|];
    cbn [mbind result_bind]; [|discriminate].
  destruct (normalize_text (row_get row (Col "Title 1") (PStr ""))) eqn:H1;
    cbn [mbind result_bind]; [|discriminate].
  destruct (normalize_text (row_get row (Col "H1-1") (PStr ""))) eqn:H2;
    cbn [mbind result_bind]; [|discriminate].
  destruct (normalize_text (row_get row (Col "H2-1") (PStr "")));
    cbn [mbind result_bind]; [|discriminate].
  destruct (normalize_text (row_get row (Col "Meta Description 1") (PStr ""))) eqn:H3;
    cbn [mbind result_bind]; [|discriminate].
  destruct (normalize_text (row_get row (Col "Meta Keywords 1") (PStr "")));
    cbn [mbind result_bind]; [|discriminate].
  destruct (extract_url_components urlparse url);
    cbn [mbind result_bind]; [|discriminate].
  intros [= <-]. cbn [Content.url].
  split; [reflexivity|].
  split; [eapply normalize_text_truth; exact H1|].
  split; eapply normalize_text_truth; [exact H2|exact H3].
Qed.

Lemma positive_score_extracted urlparse keyword row :
  (0 < score_of urlparse keyword row)%Q ->
  exists c, extract_content urlparse row = Ok c.
Proof.
  unfold score_of. intros H.
  destruct (keyword_words keyword) as [|w ws] eqn:Hkw.
  - rewrite (score_empty_keyword urlparse keyword row Hkw) in H.
    cbn [outcome] in H. lra.
  - assert (Hne : keyword_words keyword <> []) by congruence.
    destruct (extract_content urlparse row) as [c|e] eqn:He; [eauto|].
    rewrite (score_extract_failed urlparse keyword row e Hne He) in H.
    cbn [outcome] in H. lra.
Qed.

(** ** The scan of the rows *)

Lemma scan_row_outcome urlparse keyword bs bm fm row :
  (0 <= bs)%Q ->
  outcome (scan_row urlparse keyword (bs, bm, fm) row)
  = Ok (fst (leader urlparse keyword (bs, bm) row),
        snd (leader urlparse keyword (bs, bm) row),
        <[keyword := accept (leader urlparse keyword (bs, bm) row)]> fm).
Proof.
  intros Hbs. unfold scan_row. rewrite outcome_bind.
  destruct (score_of_outcome urlparse keyword row) as [-> _].
  unfold leader, accept. cbn [fst snd]. rewrite outcome_bind.
  destruct (Qgt_bool (score_of urlparse keyword row) bs) eqn:Hgt.
  - apply Qgt_bool_spec in Hgt.
    destruct (positive_score_extracted urlparse keyword row) as [c Hc]; [lra|].
    destruct (extract_content_inv urlparse row c Hc) as [Ha _].
    unfold candidate. rewrite Ha.
    destruct (Content.url c);
      cbn [lift log mret M_ret mbind M_bind outcome logged fst snd BestMatch.url];
      destruct (Qge_bool (score_of urlparse keyword row) 5); reflexivity.
  - cbn [mret M_ret outcome fst snd]. destruct bm as [m|].
    + destruct (Qge_bool bs 5); reflexivity.
    + reflexivity.
Qed.

Lemma leader_nonneg urlparse keyword bs bm row :
  (0 <= bs)%Q -> (0 <= fst (leader urlparse keyword (bs, bm) row))%Q.
Proof.
  intros Hbs. unfold leader. cbn [fst].
  destruct (Qgt_bool _ bs) eqn:Hgt; cbn [fst]; [|exact Hbs].
  apply Qgt_bool_spec in Hgt. lra.
Qed.

Lemma scan_rows_outcome urlparse keyword urls_data bs bm fm :
  (0 <= bs)%Q ->
  outcome (scan_rows urlparse keyword urls_data (bs, bm, fm))
  = Ok (fst (fold_left (leader urlparse keyword) urls_data (bs, bm)),
        snd (fold_left (leader urlparse keyword) urls_data (bs, bm)),
        match urls_data with
        | [] => fm
        | _ => <[keyword := accept (fold_left (leader urlparse keyword) urls_data (bs, bm))]> fm
        end).
Proof.
  revert bs bm fm. induction urls_data as [|row rest IH]; intros bs bm fm Hbs.
  - reflexivity.
  - cbn [scan_rows fold_left]. rewrite outcome_bind, scan_row_outcome by exact Hbs.
    pose proof (leader_nonneg urlparse keyword bs bm row Hbs) as Hnn.
    destruct (leader urlparse keyword (bs, bm) row) as [bs1 bm1].
    cbn [fst snd] in *. rewrite IH by exact Hnn.
    destruct rest as [|row2 rest]; [reflexivity|].
    rewrite insert_insert_eq. reflexivity.
Qed.




(** What the scan leaves in [best_score] and [best_match]. *)
Lemma leader_fold urlparse keyword rows bs bm :
  (fold_left (leader urlparse keyword) rows (bs, bm) = (bs, bm)
   /\ forall x, x ∈ rows -> (score_of urlparse keyword x <= bs)%Q)
  \/ exists pre r post,
       rows = (pre ++ r :: post)%list
       /\ fold_left (leader urlparse keyword) rows (bs, bm)
          = (score_of urlparse keyword r, Some (candidate r (score_of urlparse keyword r)))
       /\ (bs < score_of urlparse keyword r)%Q
       /\ (forall x, x ∈ pre ->
             (score_of urlparse keyword x < score_of urlparse keyword r)%Q)
       /\ (forall x, x ∈ post ->
             (score_of urlparse keyword x <= score_of urlparse keyword r)%Q).
Proof.
  revert bs bm. induction rows as [|r0 rest IH]; intros bs bm.
  - left. split; [reflexivity|]. intros x Hx. inversion Hx.
  - cbn [fold_left]. unfold leader at 2 4. cbn [fst].
    destruct (Qgt_bool (score_of urlparse keyword r0) bs) eqn:Hgt.
    + apply Qgt_bool_spec in Hgt. right.
      destruct (IH (score_of urlparse keyword r0)
                   (Some (candidate r0 (score_of urlparse keyword r0))))
        as [[Hst Hall]|[pre [r [post [-> [Hf [Hlt [Hpre Hpost]]]]]]]].
      * exists [], r0, rest. repeat split; try assumption.
        intros x Hx. inversion Hx.
      * exists (r0 :: pre), r, post. repeat split; try assumption; [lra|].
        intros x Hx. apply elem_of_cons in Hx as [->|Hx]; [exact Hlt|auto].
    + apply Qgt_bool_false in Hgt.
      destruct (IH bs bm) as [[Hst Hall]|[pre [r [post [-> [Hf [Hlt [Hpre Hpost]]]]]]]].
      * left. split; [exact Hst|].
        intros x Hx. apply elem_of_cons in Hx as [->|Hx]; [exact Hgt|auto].
      * right. exists (r0 :: pre), r, post. repeat split; try assumption.
        intros x Hx. apply elem_of_cons in Hx as [->|Hx]; [lra|auto].
Qed.

(** ** The loop over the keywords and the store *)

Lemma scan_keywords_outcome urlparse keywords urls_data fm :
  outcome (scan_keywords urlparse keywords urls_data fm)
  = Ok (fold_left
          (λ fm keyword,
             match urls_data with
             | [] => fm
             | _ => <[keyword := accept (fold_left (leader urlparse keyword) urls_data
                                                   (0%Q, None))]> fm
             end)
          keywords fm).
Proof.
  revert fm. induction keywords as [|keyword rest IH]; intros fm; [reflexivity|].
  cbn [scan_keywords fold_left]. rewrite outcome_bind, scan_rows_outcome by lra.
  apply IH.
Qed.

Lemma store_lookup (v : string -> option BestMatch.t) keywords
    (fm : gmap string (option BestMatch.t)) k :
  fold_left (λ fm keyword, <[keyword := v keyword]> fm) keywords fm !! k
  = if decide (k ∈ keywords) then Some (v k) else fm !! k.
Proof.
  revert fm. induction keywords as [|keyword rest IH]; intros fm.
  - cbn [fold_left]. destruct (decide (k ∈ [])) as [H|H]; [inversion H|reflexivity].
  - cbn [fold_left]. rewrite IH.
    destruct (decide (k ∈ rest)) as [Hin|Hnin].
    + rewrite decide_True by (right; exact Hin). reflexivity.
    + destruct (decide (k = keyword)) as [->|Hne].
      * rewrite decide_True by left. apply lookup_insert_eq.
      * rewrite decide_False.
        -- apply lookup_insert_ne. congruence.
        -- intros Hin. apply elem_of_cons in Hin as [?|?]; contradiction.
Qed.

Lemma store_unchanged (keywords : list string) (fm : gmap string (option BestMatch.t)) :
  fold_left (λ fm _, fm) keywords fm = fm.
Proof. induction keywords as [|k rest IH]; [reflexivity|exact IH]. Qed.

(** The store that [find_best_matches] returns. *)
Lemma find_best_matches_store urlparse keywords urls_data :
  exists fm,
    outcome (find_best_matches urlparse keywords urls_data) = Ok fm
    /\ (urls_data = [] -> fm = ∅)
    /\ (urls_data <> [] -> forall k,
          fm !! k = if decide (k ∈ keywords)
                    then Some (accept (fold_left (leader urlparse k) urls_data (0%Q, None)))
                    else None).
Proof.
  unfold find_best_matches.
  rewrite outcome_bind. cbn [log outcome].
  rewrite outcome_bind, scan_keywords_outcome.
  rewrite outcome_bind. cbn [log mret M_ret outcome].
  eexists. split; [reflexivity|]. split.
  - intros ->. apply store_unchanged.
  - intros Hne k. destruct urls_data as [|row rest]; [congruence|].
    rewrite (store_lookup
               (λ keyword, accept (fold_left (leader urlparse keyword) (row :: rest)
                                             (0%Q, None)))).
    destruct (decide (k ∈ keywords)); [reflexivity|apply lookup_empty].
Qed.

(** An accepted entry comes from a row of positive score. *)
Lemma accept_inv urlparse keyword urls_data m :
  accept (fold_left (leader urlparse keyword) urls_data (0%Q, None)) = Some m ->
  exists pre r post,
    urls_data = (pre ++ r :: post)%list
    /\ m = candidate r (score_of urlparse keyword r)
    /\ (5 <= score_of urlparse keyword r)%Q
    /\ (forall x, x ∈ pre ->
          (score_of urlparse keyword x < score_of urlparse keyword r)%Q)
    /\ (forall x, x ∈ post ->
          (score_of urlparse keyword x <= score_of urlparse keyword r)%Q).
Proof.
  unfold accept.
  destruct (leader_fold urlparse keyword urls_data 0%Q None)
    as [[-> _]|[pre [r [post [-> [-> [Hlt [Hpre Hpost]]]]]]]]; cbn [fst snd].
  - discriminate.
  - destruct (Qge_bool _ 5) eqn:H5; [|discriminate].
    intros [= <-]. apply Qge_bool_spec in H5.
    exists pre, r, post. repeat split; assumption.
Qed.


Lemma candidate_printable urlparse keyword r :
  (0 < score_of urlparse keyword r)%Q ->
  printable (candidate r (score_of urlparse keyword r)).
Proof.
  intros Hpos. destruct (positive_score_extracted urlparse keyword r Hpos) as [c Hc].
  destruct (extract_content_inv urlparse r c Hc) as [_ H]. exact H.
Qed.

(** ** The rows of the report *)

Lemma take_length n s : (String.length (Text.take n s) <= n)%nat.
Proof.
  revert s. induction n as [|n IH]; intros s; [reflexivity|].
  destruct s as [|c t]; simpl; [lia|]. specialize (IH t). lia.
Qed.

Lemma or_empty_take_ok n v b :
  truth v = Ok b -> or_empty_take n v = Ok (Text.take n (cell_text v)).
Proof.
  unfold or_empty_take. destruct v as [[|c t]| |e repr]; simpl; try discriminate;
    intros _; reflexivity.
Qed.

Lemma quality_of_spec score :
  ((40 <= score)%Q -> quality_of score = "Excellent")
  /\ ((25 <= score)%Q /\ (score < 40)%Q -> quality_of score = "Good")
  /\ ((15 <= score)%Q /\ (score < 25)%Q -> quality_of score = "Fair")
  /\ ((score < 15)%Q -> quality_of score = "Weak").
Proof.
  unfold quality_of.
  destruct (Qge_bool score 40) eqn:H40;
    [apply Qge_bool_spec in H40|apply Qge_bool_false in H40];
  (destruct (Qge_bool score 25) eqn:H25;
    [apply Qge_bool_spec in H25|apply Qge_bool_false in H25]);
  (destruct (Qge_bool score 15) eqn:H15;
    [apply Qge_bool_spec in H15|apply Qge_bool_false in H15]);
  repeat split; intros; try reflexivity; lra.
Qed.

Lemma result_row_outcome fm keyword :
  (forall m, mjoin (fm !! keyword) = Some m -> printable m) ->
  exists r,
    outcome (result_row fm keyword) = Ok r
    /\ CsvRow.keyword r = keyword
    /\ spec_row (mjoin (fm !! keyword)) r.
Proof.
  intros Hp. unfold result_row.
  destruct (mjoin (fm !! keyword)) as [m|].
  - destruct (Hp m eq_refl) as [[b1 H1] [[b2 H2] [b3 H3]]].
    rewrite outcome_bind.
    rewrite (or_empty_take_ok 150 _ _ H1), (or_empty_take_ok 100 _ _ H2),
      (or_empty_take_ok 200 _ _ H3).
    pose proof (quality_of_spec (BestMatch.score m)) as [Q1 [Q2 [Q3 Q4]]].
    destruct (BestMatch.url m) as [|c t] eqn:Hurl;
      cbn [lift log mret M_ret mbind M_bind outcome logged];
      (eexists; split; [reflexivity|]; split; [reflexivity|]);
      cbn [spec_row CsvRow.matched_url CsvRow.match_score CsvRow.match_quality
             CsvRow.page_title CsvRow.h1_heading CsvRow.meta_description];
      rewrite Hurl;
      repeat split; try assumption; try reflexivity; try congruence;
        apply take_length.
  - eexists. split; [reflexivity|]. split; [reflexivity|].
    repeat split.
Qed.

Lemma write_rows_outcome fm keywords :
  (forall k m, k ∈ keywords -> mjoin (fm !! k) = Some m -> printable m) ->
  exists rows,
    outcome (write_rows fm keywords) = Ok rows
    /\ length rows = length keywords
    /\ forall (i : nat) keyword, keywords !! i = Some keyword ->
         exists r, rows !! i = Some r
                   /\ CsvRow.keyword r = keyword
                   /\ spec_row (mjoin (fm !! keyword)) r.
Proof.
  induction keywords as [|kw rest IH]; intros Hp.
  - exists []. split; [reflexivity|]. split; [reflexivity|].
    intros i keyword H. discriminate.
  - destruct (result_row_outcome fm kw) as [r [Hr [Hk Hs]]].
    { intros m Hm. apply (Hp kw m); [left|exact Hm]. }
    destruct IH as [rows [Hrows [Hlen Hall]]].
    { intros k m Hk' Hm. apply (Hp k m); [right; exact Hk'|exact Hm]. }
    exists (r :: rows). cbn [write_rows].
    rewrite outcome_bind, Hr, outcome_bind, Hrows. cbn [mret M_ret outcome].
    split; [reflexivity|]. split; [simpl; rewrite Hlen; reflexivity|].
    intros [|i] keyword H.
    + injection H as <-. exists r. repeat split; assumption.
    + apply Hall. exact H.
Qed.

Lemma save_results_outcome keywords fm output_file rows :
  outcome (write_rows fm keywords) = Ok rows ->
  outcome (save_results keywords fm output_file) = Ok rows.
Proof.
  intros H. unfold save_results.
  assert (Hb : outcome (written ← write_rows fm keywords;
                        _ ← log INFO (ResultsSaved output_file);
                        mret written) = Ok rows).
  { rewrite outcome_bind, H, outcome_bind. reflexivity. }
  rewrite Hb. exact Hb.
Qed.




(** With at least one row, the store has an entry for a keyword exactly
    when the keyword is in the list. *)
Lemma find_best_matches_entries urlparse keywords urls_data :
  urls_data <> [] ->
  exists fm,
    outcome (find_best_matches urlparse keywords urls_data) = Ok fm
    /\ forall k, k ∈ keywords <-> is_Some (fm !! k).
Proof.
  intros Hne.
  destruct (find_best_matches_store urlparse keywords urls_data) as [fm [Hfm [_ Hl]]].
  exists fm. split; [exact Hfm|]. intros k. rewrite (Hl Hne k).
  destruct (decide (k ∈ keywords)) as [Hin|Hnin].
  - split; [intros _; eexists; reflexivity|intros _; exact Hin].
  - split; [contradiction|intros [x Hx]; discriminate].
Qed.

(** * The claims *)


(** C1, evaluated where it fails: with an empty list of records the pass
    over the rows never runs the block of lines 207-212, which sits inside
    the loop over the rows, and the store stays empty: no keyword has an
    entry. *)
Theorem find_best_matches_no_records urlparse (keywords : list string) :
  outcome (find_best_matches urlparse keywords []) = Ok ∅
  /\ forall k, k ∈ keywords ->
       exists fm, outcome (find_best_matches urlparse keywords []) = Ok fm
                  /\ fm !! k = None.
Proof.
  destruct (find_best_matches_store urlparse keywords []) as [fm [Hfm [He _]]].
  rewrite (He eq_refl) in Hfm. split; [exact Hfm|].
  intros k _. exists ∅. split; [exact Hfm|apply lookup_empty].
Qed.

(** C2: when the keyword has words and the fields of the row are read, the
    score returned is the sum over the six fields of
    (matchCount / len(keywordWords)) * 10 * weight, with the weights 5, 4, 3,
    2, 1.5 and 2.5, a field of empty text counting 0; matchCount counts the
    keyword words, with multiplicity, that are substrings of the field text;
    a keyword without words scores 0. *)
Theorem calculate_match_score_formula urlparse keyword row :
  (keyword_words keyword = [] ->
   outcome (calculate_match_score urlparse keyword row) = Ok 0%Q)
  /\ (forall c, keyword_words keyword <> [] ->
        extract_content urlparse row = Ok c ->
        exists score,
          outcome (calculate_match_score urlparse keyword row) = Ok score
          /\ (score == spec_total_score (keyword_words keyword) c)%Q)
  /\ (forall word content,
        Text.contains word content = true
        <-> exists before after, content = before +:+ word +:+ after).
Proof.
  split; [|split].
  - intros H. rewrite (score_empty_keyword urlparse keyword row H). reflexivity.
  - intros c Hkw Hc. eexists. split; [exact (score_extracted _ _ _ _ Hkw Hc)|].
    apply fold_content_fields.
  - intros word content. apply contains_spec.
Qed.

Lemma calculate_match_score_formula_witness :
  exists score,
    outcome (calculate_match_score Urllib.urlparse "red shoes" Sample.red_shoes) = Ok score
    /\ (score == 120)%Q.
Proof.
  destruct (proj1 (proj2 (calculate_match_score_formula
                            Urllib.urlparse "red shoes" Sample.red_shoes))
              {| Content.url := "https://site.com/red-shoes";
                 Content.title := "red shoes sale"; Content.h1 := "buy red shoes";
                 Content.h2 := ""; Content.meta_desc := ""; Content.meta_keywords := "";
                 Content.url_components := "site red shoes" |})
    as [score [Hs Hq]].
  - vm_compute. discriminate.
  - vm_compute. reflexivity.
  - exists score. split; [exact Hs|]. rewrite Hq. vm_compute. reflexivity.
Defined.



(** The boundary of C3 on the sample rows: one word of four in the meta
    description scores exactly 5.0 and is accepted. *)
Example exactly_five_is_accepted :
  (score_of Urllib.urlparse "alpha beta gamma delta" Sample.meta_only == 5)%Q
  /\ match outcome (find_best_matches Urllib.urlparse ["alpha beta gamma delta"]
                      [Sample.about; Sample.meta_only]) with
     | Ok fm => BestMatch.url <$> mjoin (fm !! "alpha beta gamma delta")
     | Raise _ => None
     end = Some "https://site.com/p".
Proof. split; vm_compute; reflexivity. Qed.




(** Two records tie at 120: the first one is the entry of the keyword. *)
Example tie_goes_to_the_first_record :
  (score_of Urllib.urlparse "red shoes" Sample.red_shoes
   == score_of Urllib.urlparse "red shoes" Sample.red_shoes_copy)%Q
  /\ match outcome (find_best_matches Urllib.urlparse ["red shoes"]
                      [Sample.red_shoes; Sample.red_shoes_copy]) with
     | Ok fm => BestMatch.url <$> mjoin (fm !! "red shoes")
     | Raise _ => None
     end = Some "https://site.com/red-shoes"
  /\ match outcome (find_best_matches Urllib.urlparse ["red shoes"]
                      [Sample.red_shoes_copy; Sample.red_shoes]) with
     | Ok fm => BestMatch.url <$> mjoin (fm !! "red shoes")
     | Raise _ => None
     end = Some "https://site.com/shoes/red".
Proof.
  split; [vm_compute; reflexivity|]. split; vm_compute; reflexivity.
Qed.

(** C5 as stated fails: a [www.] inside the host is removed as well, where
    the claim strips a leading one only. *)
Lemma inner_www_is_removed :
  extract_url_components Urllib.urlparse "https://shop.www.example.com/x"
  = Ok "shop example x"
  /\ spec_extract_url_words Urllib.urlparse "https://shop.www.example.com/x"
     = Ok "shop www example x"
  /\ extract_url_components Urllib.urlparse "https://shop.www.example.com/x"
     <> spec_extract_url_words Urllib.urlparse "https://shop.www.example.com/x".
Proof.
  split; [vm_compute; reflexivity|]. split; [vm_compute; reflexivity|].
  vm_compute. discriminate.
Qed.

(** C5, amended: for a URL that parses, the words are the normalisation of
    the host words, a space and the path words, where the host words are
    the host with every occurrence of [www.] and of [.com] removed and the
    remaining [.] made spaces, and the path words are the path with [/],
    [-] and [_] made spaces; a removal passes over the text from left to
    right and takes every occurrence it meets, leading or not. *)
Theorem extract_url_components_words urlparse url parsed :
  url <> EmptyString ->
  urlparse url = Ok parsed ->
  extract_url_components urlparse url
  = normalize_text
      (PStr (Text.replace "." " "
               (Text.replace ".com" "" (Text.replace "www." "" (netloc parsed)))
             +:+ " "
             +:+ Text.replace "_" " "
                   (Text.replace "-" " " (Text.replace "/" " " (path parsed)))))
  /\ (forall old new s, old <> EmptyString ->
        Text.replace old new (old +:+ s) = new +:+ Text.replace old new s)
  /\ (forall old new c s, String.prefix old (String c s) = false ->
        Text.replace old new (String c s) = String c (Text.replace old new s))
  /\ (forall old new, old <> EmptyString ->
        Text.replace old new EmptyString = EmptyString).
Proof.
  intros Hne Hp. split.
  - unfold extract_url_components. destruct url as [|c t]; [congruence|].
    rewrite Hp. cbn [mbind result_bind].
    rewrite normalize_text_str. reflexivity.
  - split; [exact replace_hit|]. split; [exact replace_miss|exact replace_empty].
Qed.

Lemma extract_url_components_words_witness :
  extract_url_components Urllib.urlparse "https://shop.www.example.com/x"
  = normalize_text (PStr "shop example  x").
Proof.
  apply (proj1 (extract_url_components_words Urllib.urlparse
                  "https://shop.www.example.com/x"
                  {| scheme := "https"; netloc := "shop.www.example.com";
                     path := "/x"; params := ""; query := ""; fragment := "" |}
                  ltac:(discriminate) ltac:(vm_compute; reflexivity))).
Defined.

(** C6: [normalize_text] is a function of its input; normalising a
    normalised text gives it back, and the empty text and an absent value
    give the empty text. *)
Theorem normalize_text_idempotent (x : string) :
  exists y,
    normalize_text (PStr x) = Ok y
    /\ normalize_text (PStr y) = Ok y
    /\ normalize_text (PStr EmptyString) = Ok EmptyString
    /\ normalize_text PNone = Ok EmptyString.
Proof.
  eexists. split; [apply normalize_text_str|].
  split; [|split; reflexivity].
  rewrite normalize_text_str. destruct x as [|c t]; [reflexivity|].
  pose proof (clean_text_normalized (String c t)) as Hn.
  set (y := clean_text (String c t)) in *.
  destruct Hn as [Hy|Hw]; [rewrite Hy; reflexivity|].
  rewrite (clean_text_fixed y Hw).
  destruct (words_head y Hw) as [d [u [Heq _]]]. rewrite Heq. reflexivity.
Qed.

(** C7: [extract_url_components] never raises: it returns a text for any
    parser and any URL, the empty text for the empty URL and the empty text
    whenever the parser raises. *)
Theorem extract_url_components_never_raises urlparse url :
  (exists words, extract_url_components urlparse url = Ok words)
  /\ (url = EmptyString -> extract_url_components urlparse url = Ok EmptyString)
  /\ (forall e, urlparse url = Raise e ->
        extract_url_components urlparse url = Ok EmptyString).
Proof.
  split; [apply extract_url_components_ok|]. split.
  - intros ->. reflexivity.
  - intros e He. unfold extract_url_components.
    destruct url as [|c t]; [reflexivity|]. rewrite He. reflexivity.
Qed.

Lemma extract_url_components_never_raises_witness :
  extract_url_components Urllib.urlparse "http://[::1/x" = Ok EmptyString.
Proof.
  apply (proj2 (proj2 (extract_url_components_never_raises
                         Urllib.urlparse "http://[::1/x"))
           (PyError "ValueError")).
  vm_compute. reflexivity.
Defined.




(** The report for the sample rows: a match and a keyword without a
    match, then a match without an address. *)
Example report_of_samples :
  report Urllib.urlparse ["red shoes"; "blue hat"] [Sample.about; Sample.red_shoes]
    "out.csv"
  = Ok [ {| CsvRow.keyword := "red shoes";
            CsvRow.matched_url := "https://site.com/red-shoes";
            CsvRow.match_score := Fixed2 (960 # 8);
            CsvRow.page_title := "Red Shoes Sale";
            CsvRow.h1_heading := "Buy Red Shoes";
            CsvRow.meta_description := "";
            CsvRow.match_quality := "Excellent" |};
         {| CsvRow.keyword := "blue hat"; CsvRow.matched_url := "NO_MATCH";
            CsvRow.match_score := Literal "0.00"; CsvRow.page_title := "";
            CsvRow.h1_heading := ""; CsvRow.meta_description := "";
            CsvRow.match_quality := "None" |} ].
Proof. vm_compute. reflexivity. Qed.

Example report_without_address :
  report Urllib.urlparse ["red shoes"] [Sample.no_address] "out.csv"
  = Ok [ {| CsvRow.keyword := "red shoes"; CsvRow.matched_url := "URL_ERROR";
            CsvRow.match_score := Fixed2 (100 # 2);
            CsvRow.page_title := "Red Shoes Sale";
            CsvRow.h1_heading := ""; CsvRow.meta_description := "";
            CsvRow.match_quality := "Excellent" |} ].
Proof. vm_compute. reflexivity. Qed.

(** C10: whatever the keyword and the record, the run returns a score
    between 0 and 180, and 180 is 10 times the sum of the six weights. *)
Theorem calculate_match_score_bounded urlparse keyword row :
  exists score,
    outcome (calculate_match_score urlparse keyword row) = Ok score
    /\ (0 <= score)%Q
    /\ (score <= 180)%Q
    /\ (180 == 10 * (5 + 4 + 3 + 2 + (3 # 2) + (5 # 2)))%Q.
Proof.
  destruct (score_of_outcome urlparse keyword row) as [Ho [H0 H180]].
  exists (score_of urlparse keyword row).
  split; [exact Ho|]. split; [exact H0|]. split; [exact H180|reflexivity].
Qed.

(** The bound of C10 is met when every field holds every keyword word. *)
Example score_bound_is_met :
  (score_of Urllib.urlparse "shoes" Sample.all_fields == 180)%Q.
Proof. vm_compute. reflexivity. Qed.

(** * Further properties of the mapper *)

(** ** Rows of text cells *)

Lemma normalize_text_cell v :
  text_cell v = true -> exists t, normalize_text v = Ok t.
Proof.
  destruct v as [[|c s]| |e repr]; simpl; intros H; try discriminate; eauto.
Qed.

Lemma row_get_text_cell row key default :
  csv_row row -> text_cell default = true -> text_cell (row_get row key default) = true.
Proof.
  intros Hrow Hd. unfold row_get. destruct (row !! key) as [v|] eqn:Hv; [|exact Hd].
  exact (Hrow key v Hv).
Qed.

Lemma first_address_text_cells row keys :
  csv_row row -> exists url, first_address row keys = Ok url.
Proof.
  intros Hrow. induction keys as [|k rest IH]; [eexists; reflexivity|].
  cbn [first_address]. destruct (row !! k) as [v|] eqn:Hv; [|exact IH].
  pose proof (Hrow k v Hv) as Hc.
  destruct v as [[|c s]| |e repr]; try discriminate; cbn; eauto.
Qed.

Lemma extract_content_csv_row urlparse row :
  csv_row row -> exists c, extract_content urlparse row = Ok c.
Proof.
  intros Hrow. unfold extract_content.
  destruct (first_address_text_cells row address_keys Hrow) as [url ->].
  cbn [mbind result_bind].
  destruct (normalize_text_cell (row_get row (Col "Title 1") (PStr "")))
    as [t1 ->]; [apply row_get_text_cell; [exact Hrow|reflexivity]|].
  cbn [mbind result_bind].
  destruct (normalize_text_cell (row_get row (Col "H1-1") (PStr "")))
    as [t2 ->]; [apply row_get_text_cell; [exact Hrow|reflexivity]|].
  cbn [mbind result_bind].
  destruct (normalize_text_cell (row_get row (Col "H2-1") (PStr "")))
    as [t3 ->]; [apply row_get_text_cell; [exact Hrow|reflexivity]|].
  cbn [mbind result_bind].
  destruct (normalize_text_cell (row_get row (Col "Meta Description 1") (PStr "")))
    as [t4 ->]; [apply row_get_text_cell; [exact Hrow|reflexivity]|].
  cbn [mbind result_bind].
  destruct (normalize_text_cell (row_get row (Col "Meta Keywords 1") (PStr "")))
    as [t5 ->]; [apply row_get_text_cell; [exact Hrow|reflexivity]|].
  cbn [mbind result_bind].
  destruct (extract_url_components_ok urlparse url) as [t6 ->].
  cbn [mbind result_bind]. eexists. reflexivity.
Qed.

(** What a run logs when the fields are read: nothing, or the two debug
    records of a positive score. *)
Lemma logged_extracted urlparse keyword row c :
  extract_content urlparse row = Ok c ->
  forall lv msg,
    (lv, msg) ∈ logged (calculate_match_score urlparse keyword row) -> lv = DEBUG.
Proof.
  intros He lv msg. unfold calculate_match_score.
  rewrite normalize_text_str.
  cbn [lift mbind M_bind outcome logged].
  destruct (Text.split _) as [|w ws].
  - cbn [mret M_ret logged app]. intros H. inversion H.
  - rewrite He. destruct (fold_left _ _ _) as [total details].
    destruct (Qgt_bool total 0);
      cbn [log mret M_ret mbind M_bind outcome logged app]; intros H.
    + apply elem_of_cons in H as [H|H]; [congruence|].
      apply elem_of_cons in H as [H|H]; [congruence|inversion H].
    + inversion H.
Qed.

(** X1: a row whose cells are all texts or [None], as [csv.DictReader]
    yields it, is read without an exception, whatever the parser does with
    its address, and scoring a keyword against it logs no warning: the
    handler of lines 135-137 is not reached. *)
Theorem csv_rows_are_read urlparse row :
  csv_row row ->
  (exists c, extract_content urlparse row = Ok c)
  /\ forall keyword lv msg,
       (lv, msg) ∈ logged (calculate_match_score urlparse keyword row) -> lv = DEBUG.
Proof.
  intros Hrow. destruct (extract_content_csv_row urlparse row Hrow) as [c Hc].
  split; [eauto|]. intros keyword. exact (logged_extracted urlparse keyword row c Hc).
Qed.

Lemma sample_rows_are_csv_rows : csv_row Sample.red_shoes.
Proof.
  intros key v. unfold Sample.red_shoes.
  rewrite !lookup_insert_Some, lookup_empty.
  intros [[_ <-]|[_ [[_ <-]|[_ [[_ <-]|[_ H]]]]]]; [reflexivity..|discriminate].
Qed.

Lemma csv_rows_are_read_witness :
  (exists c, extract_content Urllib.urlparse Sample.red_shoes = Ok c)
  /\ forall keyword lv msg,
       (lv, msg) ∈ logged (calculate_match_score Urllib.urlparse keyword Sample.red_shoes) ->
       lv = DEBUG.
Proof. exact (csv_rows_are_read Urllib.urlparse Sample.red_shoes sample_rows_are_csv_rows). Defined.

(** ** The keyword enters the score through its words only *)

Lemma word_matches_perm ws1 ws2 content :
  ws1 ≡ₚ ws2 -> word_matches ws1 content = word_matches ws2 content.
Proof.
  induction 1 as [|x l l' _ IH|x y l|l l' l'' _ IH1 _ IH2]; cbn [word_matches].
  - reflexivity.
  - rewrite IH. reflexivity.
  - lia.
  - congruence.
Qed.

Lemma score_field_perm ws1 ws2 acc1 acc2 field :
  ws1 ≡ₚ ws2 -> fst acc1 = fst acc2 ->
  fst (score_field ws1 acc1 field) = fst (score_field ws2 acc2 field).
Proof.
  intros Hp Hacc. destruct acc1 as [t1 d1], acc2 as [t2 d2], field as [content weight].
  cbn [fst] in Hacc. subst t2. unfold score_field.
  rewrite (word_matches_perm ws1 ws2 content Hp), (Permutation_length Hp).
  destruct content; [reflexivity|].
  destruct (0 <? word_matches ws2 _)%nat; reflexivity.
Qed.

Lemma fold_score_perm ws1 ws2 fields acc1 acc2 :
  ws1 ≡ₚ ws2 -> fst acc1 = fst acc2 ->
  fst (fold_left (score_field ws1) fields acc1)
  = fst (fold_left (score_field ws2) fields acc2).
Proof.
  intros Hp. revert acc1 acc2. induction fields as [|f fields IH]; intros acc1 acc2 Hacc.
  - exact Hacc.
  - cbn [fold_left]. apply IH. apply score_field_perm; assumption.
Qed.

Lemma outcome_by_words urlparse k1 k2 row :
  keyword_words k1 ≡ₚ keyword_words k2 ->
  outcome (calculate_match_score urlparse k1 row)
  = outcome (calculate_match_score urlparse k2 row).
Proof.
  intros Hp.
  destruct (keyword_words k1) as [|w1 ws1] eqn:H1.
  - apply Permutation_nil_l in Hp.
    rewrite (score_empty_keyword urlparse k1 row H1).
    rewrite (score_empty_keyword urlparse k2 row (eq_sym Hp)). reflexivity.
  - assert (Hn1 : keyword_words k1 <> []) by congruence.
    assert (Hn2 : keyword_words k2 <> []).
    { intros E. rewrite E in Hp. apply Permutation_nil_r in Hp. discriminate. }
    destruct (extract_content urlparse row) as [c|e] eqn:He.
    + rewrite (score_extracted urlparse k1 row c Hn1 He).
      rewrite (score_extracted urlparse k2 row c Hn2 He).
      f_equal. rewrite H1. apply fold_score_perm; [exact Hp|reflexivity].
    + rewrite (score_extract_failed urlparse k1 row e Hn1 He).
      rewrite (score_extract_failed urlparse k2 row e Hn2 He). reflexivity.
Qed.

Lemma keyword_words_normalized keyword t :
  normalize_text (PStr keyword) = Ok t -> keyword_words t = keyword_words keyword.
Proof.
  rewrite normalize_text_str. intros [= <-]. unfold keyword_words.
  rewrite !normalize_text_str. destruct keyword as [|c s]; [reflexivity|].
  pose proof (clean_text_normalized (String c s)) as Hn.
  set (y := clean_text (String c s)) in *.
  destruct Hn as [Hy|Hw]; [rewrite Hy; reflexivity|].
  rewrite (clean_text_fixed y Hw).
  destruct (words_head y Hw) as [d [u [Heq _]]]. rewrite Heq. reflexivity.
Qed.

(** X2: a keyword scores against every row what its normal form scores:
    upper case, punctuation, separators and extra white space in a keyword
    do not change the result of [calculate_match_score]. *)
Theorem score_of_normalized_keyword urlparse (keyword : string) :
  exists normal,
    normalize_text (PStr keyword) = Ok normal
    /\ forall row,
         outcome (calculate_match_score urlparse normal row)
         = outcome (calculate_match_score urlparse keyword row).
Proof.
  destruct (normalize_text_str_ok keyword) as [normal Hn].
  exists normal. split; [exact Hn|]. intros row.
  apply outcome_by_words. rewrite (keyword_words_normalized keyword normal Hn).
  reflexivity.
Qed.

(** X3: the order of the words of a keyword does not matter: two keywords
    whose words are the same up to their order get the same score against
    every row. *)
Theorem score_ignores_word_order urlparse k1 k2 row :
  keyword_words k1 ≡ₚ keyword_words k2 ->
  outcome (calculate_match_score urlparse k1 row)
  = outcome (calculate_match_score urlparse k2 row).
Proof. apply outcome_by_words. Qed.

Lemma score_ignores_word_order_witness :
  outcome (calculate_match_score Urllib.urlparse "Red-Shoes sale" Sample.red_shoes)
  = outcome (calculate_match_score Urllib.urlparse "sale shoes red" Sample.red_shoes).
Proof.
  apply (score_ignores_word_order Urllib.urlparse "Red-Shoes sale" "sale shoes red").
  vm_compute. apply perm_trans with ["shoes"; "red"; "sale"].
  - apply perm_swap.
  - apply perm_trans with ["shoes"; "sale"; "red"].
    + apply perm_skip, perm_swap.
    + apply perm_swap.
Defined.

(** ** The least positive score *)

Lemma spec_match_count_positive ws content :
  (0 < spec_match_count ws content)%nat
  <-> exists w, w ∈ ws /\ Text.contains w content = true.
Proof.
  unfold spec_match_count. induction ws as [|x ws IH]; cbn [List.filter length].
  - split; [lia|]. intros [w [Hw _]]. inversion Hw.
  - destruct (Text.contains x content) eqn:Hx; cbn [length].
    + split; [|lia]. intros _. exists x. split; [left|exact Hx].
    + rewrite IH. split.
      * intros [w [Hw Hc]]. exists w. split; [right; exact Hw|exact Hc].
      * intros [w [Hw Hc]]. apply elem_of_cons in Hw as [->|Hw]; [congruence|eauto].
Qed.

(** A field contributes nothing, or at least 15 over the number of
    keyword words: the least weight is 1.5. *)
Lemma spec_field_score_gap ws content weight :
  (3 # 2 <= weight)%Q ->
  (spec_field_score ws content weight == 0
   /\ (content = EmptyString \/ spec_match_count ws content = 0%nat))
  \/ ((15 # Pos.of_nat (length ws)) <= spec_field_score ws content weight
      /\ content <> EmptyString /\ (0 < spec_match_count ws content)%nat)%Q.
Proof.
  intros Hw. unfold spec_field_score. destruct content as [|c s].
  - left. split; [reflexivity|left; reflexivity].
  - set (m := spec_match_count ws (String c s)). set (p := Pos.of_nat (length ws)).
    destruct m as [|k] eqn:Hm.
    + left. split; [|right; reflexivity].
      assert (Hz : (Z.of_nat 0 # p == 0)%Q) by reflexivity. rewrite Hz. ring.
    + right. split; [|split; [discriminate|lia]].
      assert (H1 : ((10 # p) <= (Z.of_nat (S k) # p) * 10)%Q).
      { unfold Qle, Qmult. cbn [Qnum Qden]. nia. }
      assert (H2 : ((15 # p) == (10 # p) * (3 # 2))%Q).
      { unfold Qeq, Qmult. cbn [Qnum Qden]. nia. }
      assert (H3 : (0 <= (10 # p))%Q) by (unfold Qle; simpl; lia).
      rewrite H2. nra.
Qed.

Lemma split_go_nonempty s cur w :
  w ∈ Text.split_go cur s -> w <> EmptyString.
Proof.
  revert cur. induction s as [|c t IH]; intros cur; cbn [Text.split_go].
  - destruct cur; intros H; [inversion H|].
    apply list_elem_of_singleton in H as ->. discriminate.
  - destruct (Text.is_space c).
    + destruct cur as [|d u]; [apply IH|].
      intros H. apply elem_of_cons in H as [->|H]; [discriminate|exact (IH _ H)].
    + apply IH.
Qed.

Lemma keyword_words_nonempty keyword w :
  w ∈ keyword_words keyword -> w <> EmptyString.
Proof.
  unfold keyword_words. rewrite normalize_text_str. apply split_go_nonempty.
Qed.

Lemma contains_in_empty w : w <> EmptyString -> Text.contains w EmptyString = false.
Proof. destruct w; [congruence|reflexivity]. Qed.

Lemma score_of_cases urlparse keyword row :
  (score_of urlparse keyword row = 0%Q
   /\ (keyword_words keyword = [] \/ exists e, extract_content urlparse row = Raise e))
  \/ exists c,
       keyword_words keyword <> []
       /\ extract_content urlparse row = Ok c
       /\ (score_of urlparse keyword row == spec_total_score (keyword_words keyword) c)%Q.
Proof.
  unfold score_of.
  destruct (keyword_words keyword) as [|w ws] eqn:Hkw.
  - left. rewrite (score_empty_keyword urlparse keyword row Hkw). eauto.
  - assert (Hne : keyword_words keyword <> []) by congruence.
    destruct (extract_content urlparse row) as [c|e] eqn:He.
    + right. exists c. rewrite (score_extracted urlparse keyword row c Hne He).
      cbn [outcome]. rewrite Hkw in *. split; [discriminate|]. split; [reflexivity|].
      apply fold_content_fields.
    + left. rewrite (score_extract_failed urlparse keyword row e Hne He). eauto.
Qed.



Lemma spec_field_score_positive ws content weight :
  (3 # 2 <= weight)%Q ->
  (0 < spec_field_score ws content weight)%Q
  <-> exists w, w ∈ ws /\ content <> EmptyString /\ Text.contains w content = true.
Proof.
  intros Hw.
  assert (Hp : (0 < 15 # Pos.of_nat (length ws))%Q) by (unfold Qlt; simpl; lia).
  destruct (spec_field_score_gap ws content weight Hw)
    as [[G [Hc|Hc]]|[G [Hne Hm]]].
  - split; [lra|]. intros [w [_ [Hn _]]]. contradiction.
  - split; [lra|]. intros [w [Hin [_ Hcon]]].
    assert (0 < spec_match_count ws content)%nat
      by (apply spec_match_count_positive; eauto).
    lia.
  - split; [|lra]. intros _.
    apply spec_match_count_positive in Hm as [w [Hin Hcon]]. eauto.
Qed.

(** X5: when the fields of a row are read, its score for a keyword is
    positive exactly when some word of the keyword occurs, as a substring,
    in one of the six field texts. *)
Theorem score_positive_iff urlparse keyword row c :
  extract_content urlparse row = Ok c ->
  (0 < score_of urlparse keyword row)%Q
  <-> exists w text,
        w ∈ keyword_words keyword /\ text ∈ field_texts_of c
        /\ Text.contains w text = true.
Proof.
  intros He.
  destruct (score_of_cases urlparse keyword row)
    as [[Hz [Hkw|[e He']]]|[c' [Hne [He' Hs]]]]; [| congruence |].
  - rewrite Hz, Hkw. split; [lra|]. intros [w [text [Hw _]]]. inversion Hw.
  - assert (c' = c) by congruence. subst c'. rewrite Hs.
    unfold spec_total_score, field_texts_of.
    set (ws := keyword_words keyword) in *.
    pose proof (spec_field_score_bounds ws (Content.title c) 5 ltac:(lra)) as B1.
    pose proof (spec_field_score_bounds ws (Content.h1 c) 4 ltac:(lra)) as B2.
    pose proof (spec_field_score_bounds ws (Content.url_components c) 3 ltac:(lra)) as B3.
    pose proof (spec_field_score_bounds ws (Content.meta_desc c) 2 ltac:(lra)) as B4.
    pose proof (spec_field_score_bounds ws (Content.h2 c) (3 # 2) ltac:(lra)) as B5.
    pose proof (spec_field_score_bounds ws (Content.meta_keywords c) (5 # 2) ltac:(lra)) as B6.
    pose proof (spec_field_score_positive ws (Content.title c) 5 ltac:(lra)) as P1.
    pose proof (spec_field_score_positive ws (Content.h1 c) 4 ltac:(lra)) as P2.
    pose proof (spec_field_score_positive ws (Content.url_components c) 3 ltac:(lra)) as P3.
    pose proof (spec_field_score_positive ws (Content.meta_desc c) 2 ltac:(lra)) as P4.
    pose proof (spec_field_score_positive ws (Content.h2 c) (3 # 2) ltac:(lra)) as P5.
    pose proof (spec_field_score_positive ws (Content.meta_keywords c) (5 # 2) ltac:(lra)) as P6.
    split.
    + intros Hpos.
      assert (Hsome :
        (0 < spec_field_score ws (Content.title c) 5
         \/ 0 < spec_field_score ws (Content.h1 c) 4
         \/ 0 < spec_field_score ws (Content.url_components c) 3
         \/ 0 < spec_field_score ws (Content.meta_desc c) 2
         \/ 0 < spec_field_score ws (Content.h2 c) (3 # 2)
         \/ 0 < spec_field_score ws (Content.meta_keywords c) (5 # 2))%Q).
      { destruct (Qlt_le_dec 0 (spec_field_score ws (Content.title c) 5)); [tauto|].
        destruct (Qlt_le_dec 0 (spec_field_score ws (Content.h1 c) 4)); [tauto|].
        destruct (Qlt_le_dec 0 (spec_field_score ws (Content.url_components c) 3));
          [tauto|].
        destruct (Qlt_le_dec 0 (spec_field_score ws (Content.meta_desc c) 2)); [tauto|].
        destruct (Qlt_le_dec 0 (spec_field_score ws (Content.h2 c) (3 # 2))); [tauto|].
        destruct (Qlt_le_dec 0 (spec_field_score ws (Content.meta_keywords c) (5 # 2)));
          [tauto|].
        lra. }
      destruct Hsome as [H|[H|[H|[H|[H|H]]]]];
        [apply P1 in H|apply P2 in H|apply P3 in H|apply P4 in H|apply P5 in H
         |apply P6 in H]; try lra;
        destruct H as [w [Hw [_ Hc]]];
        match type of Hc with
        | Text.contains _ ?text = true => exists w, text
        end;
        (split; [exact Hw|]); (split; [|exact Hc]);
        repeat first [left | right].
    + intros [w [text [Hw [Hin Hc]]]].
      assert (Htext : text <> EmptyString).
      { intros ->. rewrite contains_in_empty in Hc; [discriminate|].
        exact (keyword_words_nonempty keyword w Hw). }
      assert (Hex : exists w, w ∈ ws /\ text <> EmptyString /\ Text.contains w text = true)
        by eauto.
      repeat (apply elem_of_cons in Hin as [->|Hin]);
        [apply P1 in Hex|apply P2 in Hex|apply P3 in Hex|apply P4 in Hex
         |apply P5 in Hex|apply P6 in Hex|inversion Hin]; lra.
Qed.

Lemma score_positive_iff_witness :
  (0 < score_of Urllib.urlparse "red hat" Sample.red_shoes)%Q
  <-> exists w text,
        w ∈ keyword_words "red hat"
        /\ text ∈ field_texts_of
                    {| Content.url := "https://site.com/red-shoes";
                       Content.title := "red shoes sale"; Content.h1 := "buy red shoes";
                       Content.h2 := ""; Content.meta_desc := "";
                       Content.meta_keywords := "";
                       Content.url_components := "site red shoes" |}
        /\ Text.contains w text = true.
Proof.
  apply (score_positive_iff Urllib.urlparse "red hat" Sample.red_shoes).
  vm_compute. reflexivity.
Defined.

(** ** The shape of a normalised text and of the keyword words *)





Lemma normalize_text_normalized v y : normalize_text v = Ok y -> normalized y.
Proof.
  unfold normalize_text. destruct (truth v) as [[|]|e]; cbn; try discriminate;
    intros [= <-]; [apply clean_text_normalized|left; reflexivity].
Qed.



Lemma append_assoc (a b c : string) : (a +:+ b) +:+ c = a +:+ (b +:+ c).
Proof.
  induction a as [|x a IH]; [reflexivity|].
  change (String x ((a +:+ b) +:+ c) = String x (a +:+ (b +:+ c))).
  f_equal. exact IH.
Qed.

Lemma append_nonempty (a : string) c : a +:+ String c EmptyString <> EmptyString.
Proof. destruct a; discriminate. Qed.

(** Splitting a normalised text: the word being read is completed by the
    first word of the text. *)
Lemma split_go_words s :
  words s ->
  exists w ws,
    (forall cur, Text.split_go cur s = (cur +:+ w) :: ws)
    /\ join_words (w :: ws) = s
    /\ Forall (λ x, x <> EmptyString /\ Text.all_chars word_char x = true) (w :: ws).
Proof.
  induction 1 as [c Hc|c t Hc Ht IH|c t Hc Ht IH].
  - exists (String c EmptyString), []. split; [|split].
    + intros cur. cbn [Text.split_go]. rewrite (word_char_not_space c Hc).
      cbn [Text.split_go].
      destruct (cur +:+ String c EmptyString) eqn:E; [|reflexivity].
      exfalso. exact (append_nonempty cur c E).
    + reflexivity.
    + constructor; [|constructor]. split; [discriminate|].
      cbn. rewrite Hc. reflexivity.
  - destruct IH as [w [ws [Hsplit [Hjoin Hall]]]].
    exists (String c w), ws. split; [|split].
    + intros cur. cbn [Text.split_go]. rewrite (word_char_not_space c Hc).
      rewrite Hsplit, append_assoc. reflexivity.
    + destruct ws as [|w2 ws]; cbn [join_words] in *; rewrite <- Hjoin; reflexivity.
    + inversion Hall as [|? ? [Hne Hw] Hrest]; subst.
      constructor; [|exact Hrest]. split; [discriminate|].
      cbn. rewrite Hc, Hw. reflexivity.
  - destruct IH as [w [ws [Hsplit [Hjoin Hall]]]].
    exists (String c EmptyString), (w :: ws). split; [|split].
    + intros cur. cbn [Text.split_go]. rewrite (word_char_not_space c Hc).
      change (Text.is_space Text.space) with true. cbv iota.
      destruct (cur +:+ String c EmptyString) eqn:E;
        [exfalso; exact (append_nonempty cur c E)|].
      rewrite (Hsplit EmptyString). reflexivity.
    + cbn [join_words]. cbn [join_words] in Hjoin. rewrite Hjoin. reflexivity.
    + constructor; [|exact Hall]. split; [discriminate|].
      cbn. rewrite Hc. reflexivity.
Qed.

(** X7: the words of a keyword, joined by single spaces, are its normal
    form, and each word is a non-empty run of word characters: [split]
    loses nothing of a normalised text but its spaces. *)
Theorem keyword_words_round_trip (keyword : string) :
  exists normal,
    normalize_text (PStr keyword) = Ok normal
    /\ join_words (keyword_words keyword) = normal
    /\ Forall (λ w, w <> EmptyString /\ Text.all_chars word_char w = true)
         (keyword_words keyword)
    /\ (keyword_words keyword = [] <-> normal = EmptyString).
Proof.
  destruct (normalize_text_str_ok keyword) as [normal Hn].
  exists normal. split; [exact Hn|].
  unfold keyword_words. rewrite Hn.
  destruct (normalize_text_normalized _ _ Hn) as [->|Hw].
  - repeat split; constructor.
  - destruct (split_go_words normal Hw) as [w [ws [Hsplit [Hjoin Hall]]]].
    unfold Text.split. rewrite (Hsplit EmptyString).
    change (EmptyString +:+ w) with w.
    split; [exact Hjoin|]. split; [exact Hall|].
    split; [discriminate|]. intros ->. inversion Hw.
Qed.

(** ** The store, keyword by keyword *)

(** X8: the entry of a keyword depends on the keyword and the records
    only: it is the same whatever other keywords the list holds and however
    often the keyword itself occurs in it. *)
Theorem entry_is_independent urlparse keywords1 keywords2 urls_data (k : string) :
  k ∈ keywords1 ->
  k ∈ keywords2 ->
  exists fm1 fm2,
    outcome (find_best_matches urlparse keywords1 urls_data) = Ok fm1
    /\ outcome (find_best_matches urlparse keywords2 urls_data) = Ok fm2
    /\ fm1 !! k = fm2 !! k.
Proof.
  intros H1 H2.
  destruct (find_best_matches_store urlparse keywords1 urls_data) as [fm1 [Hf1 [He1 Hl1]]].
  destruct (find_best_matches_store urlparse keywords2 urls_data) as [fm2 [Hf2 [He2 Hl2]]].
  exists fm1, fm2. split; [exact Hf1|]. split; [exact Hf2|].
  destruct urls_data as [|row rest].
  - rewrite (He1 eq_refl), (He2 eq_refl). reflexivity.
  - rewrite Hl1, Hl2 by discriminate.
    rewrite !decide_True by assumption. reflexivity.
Qed.

Lemma entry_is_independent_witness :
  exists fm1 fm2,
    outcome (find_best_matches Urllib.urlparse ["red shoes"; "blue hat"]
               [Sample.about; Sample.red_shoes]) = Ok fm1
    /\ outcome (find_best_matches Urllib.urlparse ["alpha"; "red shoes"; "red shoes"]
                 [Sample.about; Sample.red_shoes]) = Ok fm2
    /\ fm1 !! "red shoes" = fm2 !! "red shoes".
Proof.
  apply (entry_is_independent Urllib.urlparse ["red shoes"; "blue hat"]
           ["alpha"; "red shoes"; "red shoes"] [Sample.about; Sample.red_shoes]
           "red shoes").
  - left.
  - right. left.
Defined.




(** ** Where the rows of the report come from *)

Lemma candidate_address urlparse keyword r :
  (0 < score_of urlparse keyword r)%Q ->
  first_address r address_keys
  = Ok (BestMatch.url (candidate r (score_of urlparse keyword r))).
Proof.
  intros Hpos. destruct (positive_score_extracted urlparse keyword r Hpos) as [c Hc].
  destruct (extract_content_inv urlparse r c Hc) as [Ha _].
  unfold candidate. cbn [BestMatch.url]. rewrite Ha. reflexivity.
Qed.

(** X10: the report invents no URL and no score: the URL of a row is
    NO_MATCH, URL_ERROR, or the address resolved from one of the records,
    and then the score of the row is the score of that record for the
    keyword of the row, which is at least 5.0. *)
Theorem report_urls_come_from_records urlparse keywords urls_data output_file :
  exists fm rows,
    outcome (find_best_matches urlparse keywords urls_data) = Ok fm
    /\ outcome (save_results keywords fm output_file) = Ok rows
    /\ forall r, r ∈ rows ->
         CsvRow.matched_url r = "NO_MATCH"
         \/ CsvRow.matched_url r = "URL_ERROR"
         \/ exists row,
              row ∈ urls_data
              /\ first_address row address_keys = Ok (CsvRow.matched_url r)
              /\ CsvRow.match_score r
                 = Fixed2 (score_of urlparse (CsvRow.keyword r) row)
              /\ (5 <= score_of urlparse (CsvRow.keyword r) row)%Q.
Proof.
  destruct (find_best_matches_store urlparse keywords urls_data) as [fm [Hfm [He Hl]]].
  assert (Hentry : forall k m, mjoin (fm !! k) = Some m ->
            exists row, row ∈ urls_data
                        /\ m = candidate row (score_of urlparse k row)
                        /\ (5 <= score_of urlparse k row)%Q).
  { intros k m Hm. destruct urls_data as [|row rest].
    - rewrite (He eq_refl), lookup_empty in Hm. discriminate.
    - rewrite Hl in Hm by discriminate.
      destruct (decide (k ∈ keywords)); [|discriminate]. cbn in Hm.
      destruct (accept_inv urlparse k (row :: rest) m Hm)
        as [pre [r [post [-> [-> [H5 _]]]]]].
      exists r. split; [apply elem_of_app; right; left|]. split; [reflexivity|exact H5]. }
  destruct (write_rows_outcome fm keywords) as [rows [Hrows [Hlen Hall]]].
  { intros k m _ Hm. destruct (Hentry k m Hm) as [row [_ [-> H5]]].
    apply candidate_printable. lra. }
  exists fm, rows. split; [exact Hfm|].
  split; [exact (save_results_outcome _ _ _ _ Hrows)|].
  intros r Hr. apply list_elem_of_lookup in Hr as [i Hi].
  assert (Hlt : (i < length keywords)%nat).
  { rewrite <- Hlen. apply lookup_lt_is_Some. eauto. }
  apply lookup_lt_is_Some in Hlt as [kw Hkw].
  destruct (Hall i kw Hkw) as [r' [Hr' [Hk Hs]]].
  assert (r' = r) by congruence. subst r'.
  destruct (mjoin (fm !! kw)) as [m|] eqn:Hm.
  - destruct (Hentry kw m Hm) as [row [Hin [-> H5]]].
    destruct Hs as [Hu0 [Hu1 [Hsc _]]].
    cbn [candidate BestMatch.score] in Hsc.
    destruct (decide (BestMatch.url (candidate row (score_of urlparse kw row))
                      = EmptyString)) as [Hu|Hu].
    + right. left. exact (Hu0 Hu).
    + right. right. exists row. rewrite Hk. split; [exact Hin|].
      split; [|split; [exact Hsc|exact H5]].
      rewrite (Hu1 Hu). apply candidate_address. lra.
  - left. destruct Hs as [Hu _]. exact Hu.
Qed.

(** ** Truncation *)

Lemma take_prefix n s : exists rest, s = Text.take n s +:+ rest.
Proof.
  revert s. induction n as [|n IH]; intros s; [exists s; reflexivity|].
  destruct s as [|c t]; [exists EmptyString; reflexivity|].
  destruct (IH t) as [rest Hrest]. exists rest.
  change (String c t = String c (Text.take n t +:+ rest)). f_equal. exact Hrest.
Qed.

Lemma take_all n s : (String.length s <= n)%nat -> Text.take n s = s.
Proof.
  revert s. induction n as [|n IH]; intros s Hlen.
  - destruct s; [reflexivity|simpl in Hlen; lia].
  - destruct s as [|c t]; [reflexivity|].
    cbn [Text.take]. f_equal. apply IH. simpl in Hlen. lia.
Qed.

Lemma take_length_min n s :
  String.length (Text.take n s) = Nat.min n (String.length s).
Proof.
  revert s. induction n as [|n IH]; intros s; [reflexivity|].
  destruct s as [|c t]; [reflexivity|]. cbn [Text.take String.length Nat.min].
  f_equal. apply IH.
Qed.

(** X11: what [(v or '')[:n]] writes into the report is the beginning of
    the cell's text, of length min(n, len): a text of at most [n]
    characters is written whole and [None] as the empty text; the
    expression raises only when the truth test of the cell does. *)
Theorem truncation_keeps_the_beginning (n : nat) (v : pyobj) :
  (forall s, or_empty_take n v = Ok s ->
     (exists rest, cell_text v = s +:+ rest)
     /\ String.length s = Nat.min n (String.length (cell_text v))
     /\ ((String.length (cell_text v) <= n)%nat -> s = cell_text v))
  /\ (forall e, or_empty_take n v = Raise e <-> truth v = Raise e).
Proof.
  split.
  - intros s Hs.
    assert (Heq : s = Text.take n (cell_text v)).
    { destruct (truth v) as [b|e] eqn:Ht.
      - rewrite (or_empty_take_ok n v b Ht) in Hs. congruence.
      - unfold or_empty_take in Hs. rewrite Ht in Hs. discriminate. }
    subst s. split; [apply take_prefix|]. split; [apply take_length_min|].
    intros Hlen. apply take_all, Hlen.
  - intros e. destruct (truth v) as [b|e'] eqn:Ht.
    + rewrite (or_empty_take_ok n v b Ht). split; discriminate.
    + unfold or_empty_take. rewrite Ht. cbn [mbind result_bind].
      split; intros [= ->]; reflexivity.
Qed.

Lemma truncation_keeps_the_beginning_witness :
  (exists rest, cell_text (PStr "Red Shoes Sale") = "Red" +:+ rest)
  /\ String.length "Red" = Nat.min 3 (String.length (cell_text (PStr "Red Shoes Sale")))
  /\ ((String.length (cell_text (PStr "Red Shoes Sale")) <= 3)%nat ->
      "Red" = cell_text (PStr "Red Shoes Sale")).
Proof.
  apply (proj1 (truncation_keeps_the_beginning 3 (PStr "Red Shoes Sale")) "Red").
  reflexivity.
Defined.

(** ** The resolved address *)

Lemma rstrip_ends_in_word s : ends_in_word s = true -> Text.rstrip s = s.
Proof.
  induction s as [|c t IH]; [discriminate|].
  destruct t as [|d u].
  - cbn. intros H. apply negb_true_iff in H. rewrite H. reflexivity.
  - intros H. change (ends_in_word (String d u) = true) in H.
    change (Text.rstrip (String c (String d u)))
      with (match Text.rstrip (String d u) with
            | EmptyString =>
                if Text.is_space c then EmptyString else String c EmptyString
            | r => String c r
            end).
    rewrite (IH H). reflexivity.
Qed.

Lemma strip_strip s : Text.strip (Text.strip s) = Text.strip s.
Proof.
  destruct (strip_shape s) as [->|[c [t [-> [Hc Hend]]]]]; [reflexivity|].
  unfold Text.strip. cbn [Text.lstrip]. rewrite Hc.
  apply rstrip_ends_in_word, Hend.
Qed.

Lemma first_address_shape row keys url :
  first_address row keys = Ok url ->
  url = EmptyString
  \/ exists key s,
       key ∈ keys /\ row !! key = Some (PStr s) /\ s <> EmptyString
       /\ url = Text.strip s.
Proof.
  induction keys as [|k rest IH]; cbn [first_address].
  - intros [= <-]. left. reflexivity.
  - destruct (row !! k) as [v|] eqn:Hv.
    + destruct v as [[|c t]| |e repr]; cbn.
      * intros H. destruct (IH H) as [->|[key [s [Hin Hrest]]]]; [left; reflexivity|].
        right. exists key, s. split; [right; exact Hin|exact Hrest].
      * intros [= <-]. right. exists k, (String c t).
        split; [left|]. split; [exact Hv|]. split; [discriminate|reflexivity].
      * intros H. destruct (IH H) as [->|[key [s [Hin Hrest]]]]; [left; reflexivity|].
        right. exists key, s. split; [right; exact Hin|exact Hrest].
      * discriminate.
    + intros H. destruct (IH H) as [->|[key [s [Hin Hrest]]]]; [left; reflexivity|].
      right. exists key, s. split; [right; exact Hin|exact Hrest].
Qed.

(** X12: the address resolved for a row carries no white space at its
    ends, and it is empty or the stripped text of a non-empty cell under
    one of the five aliases; a non-empty [Address] cell always decides,
    also when stripping leaves nothing of it and a later alias holds a URL. *)
Theorem resolved_address urlparse row :
  (forall url, first_address row address_keys = Ok url ->
     Text.strip url = url
     /\ (url = EmptyString
         \/ exists key s,
              key ∈ address_keys /\ row !! key = Some (PStr s)
              /\ s <> EmptyString /\ url = Text.strip s))
  /\ (forall s, row !! Col "Address" = Some (PStr s) -> s <> EmptyString ->
        first_address row address_keys = Ok (Text.strip s))
  /\ (forall c, extract_content urlparse row = Ok c ->
        first_address row address_keys = Ok (Content.url c)).
Proof.
  split; [|split].
  - intros url H. pose proof (first_address_shape row address_keys url H) as Hs.
    split; [|exact Hs].
    destruct Hs as [->|[key [s [_ [_ [_ ->]]]]]]; [reflexivity|apply strip_strip].
  - intros s Hs Hne. unfold address_keys. cbn [first_address]. rewrite Hs.
    destruct s; [congruence|reflexivity].
  - intros c Hc. exact (proj1 (extract_content_inv urlparse row c Hc)).
Qed.

Lemma resolved_address_witness :
  first_address (<[Col "URL" := PStr "https://site.com/x"]>
                   (<[Col "Address" := PStr "   "]> ∅)) address_keys
  = Ok (Text.strip "   ").
Proof.
  apply (proj1 (proj2 (resolved_address Urllib.urlparse
                         (<[Col "URL" := PStr "https://site.com/x"]>
                            (<[Col "Address" := PStr "   "]> ∅)))) "   ").
  - vm_compute. reflexivity.
  - discriminate.
Defined.

(** * The loaders *)

(** ** [load_keywords] *)

Lemma replace_cr_cons c t :
  Text.replace (String cr EmptyString) "" (String c t)
  = if Ascii.eqb c cr then Text.replace (String cr EmptyString) "" t
    else String c (Text.replace (String cr EmptyString) "" t).
Proof.
  destruct (Ascii.eqb c cr) eqn:E.
  - apply Ascii.eqb_eq in E. subst c.
    change (String cr t) with (String cr EmptyString +:+ t).
    rewrite replace_hit by discriminate. reflexivity.
  - apply replace_miss. cbn [String.prefix].
    destruct (ascii_dec cr c) as [<-|]; [|reflexivity].
    rewrite Ascii.eqb_refl in E. discriminate.
Qed.

Lemma replace_cr_count s :
  count_char cr (Text.replace (String cr EmptyString) "" s) = 0%nat.
Proof.
  induction s as [|c t IH]; [reflexivity|].
  rewrite replace_cr_cons. destruct (Ascii.eqb c cr) eqn:E; [exact IH|].
  cbn [count_char]. rewrite E, IH. reflexivity.
Qed.

Lemma not_space_not_cr c : Text.is_space c = false -> Ascii.eqb c cr = false.
Proof. each_char c. Qed.

Lemma replace_cr_ends_in_word s :
  ends_in_word s = true ->
  ends_in_word (Text.replace (String cr EmptyString) "" s) = true.
Proof.
  induction s as [|c t IH]; [discriminate|].
  rewrite replace_cr_cons. destruct t as [|d u].
  - cbn [ends_in_word]. intros H. apply negb_true_iff in H.
    rewrite (not_space_not_cr c H). cbn. rewrite H. reflexivity.
  - intros H. change (ends_in_word (String d u) = true) in H. specialize (IH H).
    destruct (Ascii.eqb c cr); [exact IH|].
    destruct (Text.replace (String cr EmptyString) "" (String d u)) as [|x r];
      [discriminate|exact IH].
Qed.

Lemma keyword_of_line_clean line c t :
  Text.strip line = String c t ->
  let k := Text.replace (String cr EmptyString) "" (Text.strip line) in
  k <> EmptyString /\ Text.strip k = k /\ count_char cr k = 0%nat.
Proof.
  intros Hs k. subst k.
  destruct (strip_shape line) as [He|[c' [t' [He [Hc Hend]]]]]; [congruence|].
  rewrite He. pose proof (replace_cr_ends_in_word _ Hend) as Hend'.
  assert (Hk : Text.replace (String cr EmptyString) "" (String c' t')
               = String c' (Text.replace (String cr EmptyString) "" t')).
  { rewrite replace_cr_cons, (not_space_not_cr c' Hc). reflexivity. }
  split; [rewrite Hk; discriminate|]. split; [|apply replace_cr_count].
  rewrite Hk in *. unfold Text.strip. cbn [Text.lstrip]. rewrite Hc.
  apply rstrip_ends_in_word, Hend'.
Qed.

Lemma keywords_of_lines_clean lines :
  Forall (λ k, k <> EmptyString /\ Text.strip k = k /\ count_char cr k = 0%nat)
    (keywords_of_lines lines).
Proof.
  induction lines as [|line rest IH]; [constructor|].
  cbn [keywords_of_lines]. destruct (Text.strip line) as [|c t] eqn:Hs; [exact IH|].
  constructor; [|exact IH].
  rewrite <- Hs. exact (keyword_of_line_clean line c t Hs).
Qed.

Lemma keywords_of_lines_length lines :
  length (keywords_of_lines lines)
  = length (List.filter (λ line, negb (String.eqb (Text.strip line) "")) lines).
Proof.
  induction lines as [|line rest IH]; [reflexivity|].
  cbn [keywords_of_lines List.filter]. destruct (Text.strip line); cbn; congruence.
Qed.

(** X13: every keyword that [load_keywords] stores is non-empty, starts
    and ends with a character that is not white space, and holds no
    carriage return; there is one keyword per line that is not blank. A
    file of blank lines loads as the empty list, without an error. *)
Theorem load_keywords_clean env filepath keywords :
  loaded (load_keywords env filepath) = Ok keywords ->
  Forall (λ k, k <> EmptyString /\ Text.strip k = k /\ count_char cr k = 0%nat) keywords
  /\ exists content,
       read_text env filepath = Ok content
       /\ length keywords
          = length (List.filter (λ line, negb (String.eqb (Text.strip line) ""))
                      (file_lines content)).
Proof.
  unfold load_keywords. destruct (read_text env filepath) as [content|e].
  - cbn [loaded]. intros [= <-]. split; [apply keywords_of_lines_clean|].
    exists content. split; [reflexivity|apply keywords_of_lines_length].
  - destruct (is_file_not_found e); discriminate.
Qed.

Lemma load_keywords_clean_witness :
  Forall (λ k, k <> EmptyString /\ Text.strip k = k /\ count_char cr k = 0%nat)
    ["red shoes"; "blue hat"]
  /\ exists content,
       read_text (sample_env (" red shoes " +:+ String lf (String lf "blue hat")) [])
         "keywords.txt" = Ok content
       /\ length ["red shoes"; "blue hat"]
          = length (List.filter (λ line, negb (String.eqb (Text.strip line) ""))
                      (file_lines content)).
Proof.
  apply (load_keywords_clean
           (sample_env (" red shoes " +:+ String lf (String lf "blue hat")) [])
           "keywords.txt").
  vm_compute. reflexivity.
Defined.

(** A keyword that is loaded may still have no word: punctuation alone
    normalises to the empty text, and such a keyword scores 0 everywhere. *)
Example punctuation_keyword_has_no_word :
  keywords_of_lines (file_lines "?!") = ["?!"] /\ keyword_words "?!" = [].
Proof. split; vm_compute; reflexivity. Qed.

(** ** The delimiter of the export *)

Lemma count_char_contains c s :
  (0 < count_char c s)%nat -> Text.contains (String c EmptyString) s = true.
Proof.
  induction s as [|d t IH]; cbn [count_char]; [lia|].
  intros H. cbn [Text.contains String.prefix].
  destruct (ascii_dec c d) as [->|Hne].
  - destruct t; reflexivity.
  - destruct (Ascii.eqb d c) eqn:E; [apply Ascii.eqb_eq in E; congruence|].
    rewrite IH by lia. apply orb_true_r.
Qed.

Lemma take_app_length a b : Text.take (String.length a) (a +:+ b) = a.
Proof.
  induction a as [|c a IH]; [destruct b; reflexivity|].
  change (String c a +:+ b) with (String c (a +:+ b)).
  cbn [String.length Text.take]. rewrite IH. reflexivity.
Qed.

(** X14: the export is read as tab-separated exactly when the tabs
    outnumber the commas among its first 1024 characters; a tie, and a
    sample without either, give the comma, and nothing after the sample
    counts. The test ['\t' in sample] of line 65 never decides. *)
Theorem delimiter_by_majority (sample : string) :
  (detect_delimiter sample = tab
   <-> (count_char comma sample < count_char tab sample)%nat)
  /\ (detect_delimiter sample = comma
      <-> (count_char tab sample <= count_char comma sample)%nat)
  /\ (forall rest, String.length sample = 1024%nat ->
        detect_delimiter (Text.take 1024 (sample +:+ rest)) = detect_delimiter sample).
Proof.
  assert (H : detect_delimiter sample
              = if (count_char comma sample <? count_char tab sample)%nat
                then tab else comma).
  { unfold detect_delimiter.
    destruct (count_char comma sample <? count_char tab sample)%nat eqn:E.
    - apply Nat.ltb_lt in E. rewrite count_char_contains by lia. reflexivity.
    - rewrite andb_false_r. reflexivity. }
  rewrite H. split; [|split].
  - destruct (count_char comma sample <? count_char tab sample)%nat eqn:E.
    + apply Nat.ltb_lt in E. split; [intros _; exact E|reflexivity].
    + apply Nat.ltb_ge in E. split; [discriminate|lia].
  - destruct (count_char comma sample <? count_char tab sample)%nat eqn:E.
    + apply Nat.ltb_lt in E. split; [discriminate|lia].
    + apply Nat.ltb_ge in E. split; [intros _; exact E|reflexivity].
  - intros rest Hlen. rewrite <- Hlen, take_app_length, <- H. reflexivity.
Qed.

(** * The summary *)

(** ** The name a URL is shown under *)

Lemma contains_char_count c s :
  Text.contains (String c EmptyString) s = true -> (0 < count_char c s)%nat.
Proof.
  induction s as [|d t IH]; cbn [Text.contains String.prefix count_char].
  - discriminate.
  - destruct (ascii_dec c d) as [->|Hne].
    + rewrite Ascii.eqb_refl. lia.
    + cbn [orb]. intros H. specialize (IH H). lia.
Qed.

Lemma split_on_length sep s : length (split_on sep s) = S (count_char sep s).
Proof.
  induction s as [|c t IH]; [reflexivity|].
  cbn [split_on count_char]. destruct (Ascii.eqb c sep).
  - cbn [length]. rewrite IH. reflexivity.
  - destruct (split_on sep t) as [|seg rest]; [discriminate|].
    cbn [length] in *. lia.
Qed.

Lemma prefix_refl s : String.prefix s s = true.
Proof.
  induction s as [|c t IH]; [reflexivity|]. cbn [String.prefix].
  destruct (ascii_dec c c); [exact IH|congruence].
Qed.

Lemma contains_refl s : Text.contains s s = true.
Proof. destruct s; cbn [Text.contains]; rewrite prefix_refl; reflexivity. Qed.

Lemma contains_cons w c s : Text.contains w s = true -> Text.contains w (String c s) = true.
Proof. intros H. cbn [Text.contains]. rewrite H. apply orb_true_r. Qed.

Lemma contains_prefix w s : String.prefix w s = true -> Text.contains w s = true.
Proof. intros H. destruct s; cbn [Text.contains]; rewrite H; reflexivity. Qed.

(** The first piece of a split is the beginning of the text, and every
    piece occurs in it. *)
Lemma split_on_pieces sep s :
  (forall seg rest, split_on sep s = seg :: rest -> String.prefix seg s = true)
  /\ (forall seg, seg ∈ split_on sep s -> Text.contains seg s = true).
Proof.
  induction s as [|c t [IHp IHc]].
  - split.
    + intros seg rest [= <- _]. reflexivity.
    + intros seg H. apply list_elem_of_singleton in H as ->. reflexivity.
  - cbn [split_on]. destruct (Ascii.eqb c sep).
    + split.
      * intros seg rest [= <- _]. reflexivity.
      * intros seg H. apply elem_of_cons in H as [->|H]; [reflexivity|].
        apply contains_cons, IHc, H.
    + destruct (split_on sep t) as [|seg0 rest0] eqn:Hs.
      * split.
        -- intros seg rest [= <- _]. cbn [String.prefix].
           destruct (ascii_dec c c); [|congruence]. destruct t; reflexivity.
        -- intros seg H. apply list_elem_of_singleton in H as ->.
           apply contains_prefix. cbn [String.prefix].
           destruct (ascii_dec c c); [|congruence]. destruct t; reflexivity.
      * assert (Hp0 : String.prefix (String c seg0) (String c t) = true).
        { cbn [String.prefix]. destruct (ascii_dec c c); [|congruence].
          exact (IHp seg0 rest0 eq_refl). }
        split.
        -- intros seg rest [= <- _]. exact Hp0.
        -- intros seg H. apply elem_of_cons in H as [->|H].
           ++ apply contains_prefix, Hp0.
           ++ apply contains_cons, IHc. right. exact H.
Qed.

Lemma from_end_ok n l :
  (0 < n)%nat -> (n <= length l)%nat ->
  exists x, from_end n l = Ok x /\ x ∈ l.
Proof.
  intros H0 Hn. unfold from_end.
  assert (E1 : (n <=? length l)%nat = true) by (apply Nat.leb_le; exact Hn).
  assert (E2 : (0 <? n)%nat = true) by (apply Nat.ltb_lt; exact H0).
  rewrite E1, E2. cbn [andb]. eexists. split; [reflexivity|].
  apply list_elem_of_In, nth_In. lia.
Qed.

Lemma url_name_ok url :
  exists name,
    url_name url = Ok name
    /\ name <> EmptyString
    /\ (url = EmptyString -> name = "unknown")
    /\ (url <> EmptyString -> Text.contains name url = true)
    /\ (url <> EmptyString -> Text.contains "/" url = false -> name = url).
Proof.
  destruct url as [|c t].
  - exists "unknown". repeat split; try discriminate; congruence.
  - set (url := String c t). unfold url_name. fold url.
    destruct (Text.contains "/" url) eqn:Hslash.
    + pose proof (contains_char_count "/" url Hslash) as Hcount.
      pose proof (split_on_length "/" url) as Hlen.
      destruct (from_end_ok 1 (split_on "/" url)) as [last [-> Hlast]]; [lia..|].
      cbn [mbind result_bind].
      destruct last as [|d u].
      * destruct (from_end_ok 2 (split_on "/" url)) as [before [-> Hbefore]]; [lia..|].
        cbn [mbind result_bind]. destruct before as [|d u].
        -- exists url. repeat split; try discriminate; try congruence.
           intros _. apply contains_refl.
        -- exists (String d u). repeat split; try discriminate; try congruence.
           intros _. exact (proj2 (split_on_pieces "/" url) _ Hbefore).
      * exists (String d u). repeat split; try discriminate; try congruence.
        intros _. exact (proj2 (split_on_pieces "/" url) _ Hlast).
    + exists url. repeat split; try discriminate; try congruence.
      intros _. apply contains_refl.
Qed.

(** X15: the name a URL is shown under in the summary is never empty and
    never fails: the indexing of lines 313 and 324 cannot raise. It is
    "unknown" for the empty URL, the URL itself when it holds no slash, and
    otherwise a piece of the URL. *)
Theorem url_name_is_a_piece (url : string) :
  exists name,
    url_name url = Ok name
    /\ name <> EmptyString
    /\ (url = EmptyString -> name = "unknown")
    /\ (url <> EmptyString -> Text.contains name url = true)
    /\ (url <> EmptyString -> Text.contains "/" url = false -> name = url).
Proof. apply url_name_ok. Qed.

Example url_name_samples :
  map url_name ["https://site.com/red-shoes"; "https://site.com/a/"; "https://"; "abc"; ""]
  = [Ok "red-shoes"; Ok "a"; Ok "https://"; Ok "abc"; Ok "unknown"].
Proof. vm_compute. reflexivity. Qed.

(** ** What [print_summary] prints *)

Lemma finished_bind {A B} (m : P A) (f : A -> P B) :
  finished (m ≫= f)
  = match finished m with
    | Ok a => finished (f a)
    | Raise e => Raise e
    end.
Proof. unfold mbind, P_bind. destruct (finished m); reflexivity. Qed.

Lemma printed_bind {A B} (m : P A) (f : A -> P B) :
  printed (m ≫= f)
  = match finished m with
    | Ok a => (printed m ++ printed (f a))%list
    | Raise e => printed m
    end.
Proof. unfold mbind, P_bind. destruct (finished m); reflexivity. Qed.

Lemma for_each_finishes {A} (body : A -> P unit) l :
  (forall x, finished (body x) = Ok tt) -> finished (for_each body l) = Ok tt.
Proof.
  intros H. induction l as [|x rest IH]; [reflexivity|].
  cbn [for_each]. rewrite finished_bind, H. exact IH.
Qed.

Lemma for_each_print lines :
  finished (for_each print lines) = Ok tt /\ printed (for_each print lines) = lines.
Proof.
  induction lines as [|l rest [IHf IHp]]; [split; reflexivity|].
  cbn [for_each]. rewrite finished_bind, printed_bind. cbn [print finished printed].
  rewrite IHf, IHp. split; reflexivity.
Qed.

Lemma print_top_match_finishes entry : finished (print_top_match entry) = Ok tt.
Proof.
  destruct entry as [rank [keyword mapping]]. unfold print_top_match.
  destruct (url_name_ok (BestMatch.url mapping)) as [name [Hn _]].
  rewrite finished_bind. cbn [evaluate finished]. rewrite Hn. reflexivity.
Qed.

Lemma print_multi_url_finishes group : finished (print_multi_url group) = Ok tt.
Proof.
  destruct group as [url keywords]. unfold print_multi_url.
  destruct (url_name_ok url) as [name [Hn _]].
  rewrite finished_bind. cbn [evaluate finished]. rewrite Hn.
  rewrite finished_bind. cbn [print finished].
  rewrite finished_bind, (proj1 (for_each_print _)) || idtac.
  rewrite ?finished_bind.
  assert (Hk : finished (for_each (λ keyword, print (MultiKeyword keyword))
                           (firstn 3 keywords)) = Ok tt)
    by (apply for_each_finishes; reflexivity).
  rewrite Hk. destruct (3 <? length keywords)%nat; reflexivity.
Qed.

Lemma print_summary_finished keywords items :
  finished (print_summary keywords items)
  = match keywords with
    | [] => Raise (PyError "ZeroDivisionError")
    | _ => Ok tt
    end.
Proof.
  destruct keywords as [|k rest]; [reflexivity|].
  unfold print_summary. rewrite finished_bind, (proj1 (for_each_print _)).
  rewrite finished_bind. cbn [length evaluate finished].
  rewrite finished_bind, (proj1 (for_each_print _)).
  rewrite finished_bind.
  assert (H1 : forall scores : list Q,
             finished (match scores with
                       | [] => mret tt
                       | first :: others =>
                           print (ScoreRange (min_score first others)
                                             (max_score first others))
                       end) = Ok tt) by (intros [|? ?]; reflexivity).
  rewrite H1. rewrite finished_bind.
  assert (H2 : finished
                 (if (0 <? length (scored_items items))%nat
                  then _ ← print TopHeading;
                       for_each print_top_match
                         (combine (seq 1 (length (top_matches items)))
                                  (top_matches items))
                  else mret tt) = Ok tt).
  { destruct (0 <? length (scored_items items))%nat; [|reflexivity].
    rewrite finished_bind. cbn [print finished].
    apply for_each_finishes, print_top_match_finishes. }
  rewrite H2. rewrite finished_bind.
  assert (H3 : finished
                 (match multi_keyword_urls items with
                  | [] => mret tt
                  | _ =>
                      _ ← print (MultiHeading (length (multi_keyword_urls items)));
                      for_each print_multi_url
                        (firstn 5
                           (sort_desc (λ y x, (length (snd x) <? length (snd y))%nat)
                                      (multi_keyword_urls items)))
                  end) = Ok tt).
  { destruct (multi_keyword_urls items); [reflexivity|].
    rewrite finished_bind. cbn [print finished].
    apply for_each_finishes, print_multi_url_finishes. }
  rewrite H3. reflexivity.
Qed.

(** X16: [print_summary] ends normally exactly when the list of keywords
    is not empty. With no keyword the division of line 298 raises
    [ZeroDivisionError] after the first lines of the summary were printed,
    whatever the store holds. Standard output is taken to accept every
    line. *)
Theorem print_summary_needs_a_keyword (keywords : list string)
    (items : list (string * option BestMatch.t)) :
  (finished (print_summary keywords items) = Ok tt <-> keywords <> [])
  /\ (finished (print_summary keywords items) = Raise (PyError "ZeroDivisionError")
      <-> keywords = [])
  /\ (keywords = [] ->
      printed (print_summary keywords items)
      = [Blank; Rule; Heading; Rule; TotalKeywords 0;
         MatchedKeywords (length (scored_items items));
         UnmatchedKeywords (- Z.of_nat (length (scored_items items)))]).
Proof.
  rewrite print_summary_finished. destruct keywords as [|k rest].
  - split; [split; [discriminate|congruence]|].
    split; [split; reflexivity|reflexivity].
  - split; [split; [discriminate|reflexivity]|].
    split; [split; discriminate|discriminate].
Qed.

(** ** The top list *)

Section Sorting.
Context {A : Type} (key : A -> Q).

Lemma insert_desc_perm (above : A -> A -> bool) x l : insert_desc above x l ≡ₚ x :: l.
Proof.
  induction l as [|y rest IH]; [reflexivity|].
  cbn [insert_desc]. destruct (above y x); [|reflexivity].
  rewrite IH. apply Permutation_swap.
Qed.

Lemma sort_desc_perm (above : A -> A -> bool) l : sort_desc above l ≡ₚ l.
Proof.
  induction l as [|x rest IH]; [reflexivity|].
  cbn [sort_desc]. rewrite insert_desc_perm, IH. reflexivity.
Qed.

Lemma insert_desc_sorted x l :
  StronglySorted (key_order key) l -> StronglySorted (key_order key) (insert_desc (key_above key) x l).
Proof.
  induction 1 as [|y rest Hs IH Hy]; cbn [insert_desc].
  - constructor; [constructor|constructor].
  - unfold key_above at 1. destruct (Qgt_bool (key y) (key x)) eqn:E.
    + apply Qgt_bool_spec in E. constructor; [exact IH|].
      rewrite (insert_desc_perm (key_above key) x rest). constructor; [|exact Hy].
      unfold key_order. apply Qlt_le_weak, E.
    + apply Qgt_bool_false in E. constructor.
      * constructor; assumption.
      * constructor; [exact E|].
        eapply Forall_impl; [exact Hy|]. unfold key_order. intros z Hz.
        eapply Qle_trans; eassumption.
Qed.

Lemma sort_desc_sorted l : StronglySorted (key_order key) (sort_desc (key_above key) l).
Proof.
  induction l as [|x rest IH]; [constructor|].
  cbn [sort_desc]. apply insert_desc_sorted, IH.
Qed.

Lemma sorted_app_order l1 l2 a b :
  StronglySorted (key_order key) (l1 ++ l2)%list -> a ∈ l1 -> b ∈ l2 -> key_order key a b.
Proof.
  induction l1 as [|x rest IH]; intros Hs Ha Hb.
  - inversion Ha.
  - cbn [app] in Hs. apply StronglySorted_inv in Hs as [Hs' Hall].
    apply elem_of_cons in Ha as [Ha|Ha].
    + subst a. rewrite Forall_forall in Hall. apply Hall.
      apply elem_of_app. right. exact Hb.
    + apply IH; assumption.
Qed.

Lemma sorted_lookup_order l (i j : nat) a b :
  StronglySorted (key_order key) l -> (i < j)%nat ->
  l !! i = Some a -> l !! j = Some b -> key_order key a b.
Proof.
  intros Hs. revert i j. induction Hs as [|x rest Hs IH Hx]; intros i j Hij Ha Hb.
  - discriminate.
  - destruct j as [|j]; [lia|]. cbn in Hb. destruct i as [|i].
    + cbn in Ha. injection Ha as ->. rewrite Forall_forall in Hx. apply Hx.
      eapply list_elem_of_lookup_2. exact Hb.
    + cbn in Ha. apply (IH i j); [lia|assumption..].
Qed.

End Sorting.

Lemma scored_items_elem items keyword mapping :
  (keyword, mapping) ∈ scored_items items <-> (keyword, Some mapping) ∈ items.
Proof.
  unfold scored_items. rewrite list_elem_of_omap. split.
  - intros [[k [m|]] [Hin Heq]]; cbn in Heq; [|discriminate].
    injection Heq as -> ->. exact Hin.
  - intros Hin. exists (keyword, Some mapping). split; [exact Hin|reflexivity].
Qed.

(** X17: the top list of the summary (lines 307-310) holds the ten
    best-scored matches of the store, or all of them when there are fewer:
    its scores never rise from one rank to the next, and no match that was
    left out scores more than a listed one. *)
Theorem top_matches_are_the_best (items : list (string * option BestMatch.t)) :
  exists left_out,
    (top_matches items ++ left_out)%list ≡ₚ scored_items items
    /\ length (top_matches items) = Nat.min 10 (length (scored_items items))
    /\ (forall keyword mapping,
          (keyword, mapping) ∈ top_matches items -> (keyword, Some mapping) ∈ items)
    /\ (forall (i j : nat) a b,
          (i < j)%nat -> top_matches items !! i = Some a -> top_matches items !! j = Some b ->
          (BestMatch.score (snd b) <= BestMatch.score (snd a))%Q)
    /\ (forall a b,
          a ∈ top_matches items -> b ∈ left_out ->
          (BestMatch.score (snd b) <= BestMatch.score (snd a))%Q).
Proof.
  set (key := λ e : string * BestMatch.t, BestMatch.score (snd e)).
  set (sorted := sort_desc (key_above key) (scored_items items)).
  assert (Htop : top_matches items = firstn 10 sorted) by reflexivity.
  assert (Hperm : sorted ≡ₚ scored_items items) by apply sort_desc_perm.
  assert (Hsorted : StronglySorted (key_order key) sorted) by apply sort_desc_sorted.
  exists (skipn 10 sorted). rewrite Htop.
  split; [rewrite firstn_skipn; exact Hperm|].
  split; [rewrite length_firstn, (Permutation_length Hperm); reflexivity|].
  split.
  { intros keyword mapping Hin. apply scored_items_elem. rewrite <- Hperm.
    rewrite <- (firstn_skipn 10 sorted). apply elem_of_app. left. exact Hin. }
  split.
  - intros i j a b Hij Ha Hb.
    apply (sorted_lookup_order key (firstn 10 sorted) i j a b); try assumption.
    rewrite <- (firstn_skipn 10 sorted) in Hsorted.
    clear -Hsorted. revert Hsorted. generalize (skipn 10 sorted).
    induction (firstn 10 sorted) as [|x rest IH]; intros l2 Hs; [constructor|].
    cbn [app] in Hs. inversion Hs as [|? ? Hs' Hall]; subst.
    constructor; [eapply IH; exact Hs'|].
    apply Forall_app in Hall as [Hall _]. exact Hall.
  - intros a b Ha Hb.
    apply (sorted_app_order key (firstn 10 sorted) (skipn 10 sorted)); try assumption.
    rewrite firstn_skipn. exact Hsorted.
Qed.

(** ** The URLs that several keywords chose *)











(** * The script *)

(** Every entry of the store of a run can be written: its cells were read
    without an exception when the record was scored. *)
Lemma store_entries_printable urlparse keywords urls_data fm k m :
  outcome (find_best_matches urlparse keywords urls_data) = Ok fm ->
  mjoin (fm !! k) = Some m -> printable m.
Proof.
  intros Hrun Hm.
  destruct (find_best_matches_store urlparse keywords urls_data) as [fm' [Hfm [He Hl]]].
  assert (fm' = fm) by congruence. subst fm'.
  destruct urls_data as [|row rest].
  - rewrite (He eq_refl), lookup_empty in Hm. discriminate.
  - rewrite Hl in Hm by discriminate.
    destruct (decide (k ∈ keywords)); [|discriminate]. cbn in Hm.
    destruct (accept_inv urlparse k (row :: rest) m Hm)
      as [pre [r [post [_ [-> [H5 _]]]]]].
    apply candidate_printable. lra.
Qed.

Lemma report_rows urlparse keywords urls_data output_file :
  exists fm rows,
    outcome (find_best_matches urlparse keywords urls_data) = Ok fm
    /\ outcome (write_rows fm keywords) = Ok rows
    /\ report urlparse keywords urls_data output_file = Ok rows
    /\ length rows = length keywords.
Proof.
  destruct (find_best_matches_store urlparse keywords urls_data) as [fm [Hfm _]].
  destruct (write_rows_outcome fm keywords) as [rows [Hrows [Hlen _]]].
  - intros k m _ Hm. exact (store_entries_printable _ _ _ _ _ _ Hfm Hm).
  - exists fm, rows. split; [exact Hfm|]. split; [exact Hrows|].
    split; [|exact Hlen]. unfold report. rewrite Hfm.
    exact (save_results_outcome _ _ _ _ Hrows).
Qed.

(** A run whose three files open reaches the summary, after these events. *)
Lemma main_reaches_summary urlparse env args keywords urls_data :
  loaded (load_keywords env (keywords_file args)) = Ok keywords ->
  loaded (load_screaming_frog_data env (screaming_frog_file args)) = Ok urls_data ->
  open_write env (output_file args) = Ok tt ->
  exists fm rows,
    outcome (find_best_matches urlparse keywords urls_data) = Ok fm
    /\ outcome (write_rows fm keywords) = Ok rows
    /\ let summary := print_summary keywords (dict_items keywords [] fm) in
       let before :=
         (map IoLogged (load_log (load_keywords env (keywords_file args)))
          ++ map IoLogged
               (load_log (load_screaming_frog_data env (screaming_frog_file args)))
          ++ map MapperLogged (logged (find_best_matches urlparse keywords urls_data))
          ++ (map MapperLogged (logged (write_rows fm keywords))
              ++ [FileWritten (output_file args) rows;
                  MapperLogged (INFO, ResultsSaved (output_file args))])
          ++ map Printed (printed summary))%list in
       main urlparse env args
       = match finished summary with
         | Ok _ => (0%Z, before)
         | Raise e => (1%Z, (before ++ [IoLogged (ERROR, ScriptFailed e)])%list)
         end.
Proof.
  intros Hk Hu Hw.
  destruct (report_rows urlparse keywords urls_data (output_file args))
    as (fm & rows & Hfm & Hrows & _ & _).
  exists fm, rows. split; [exact Hfm|]. split; [exact Hrows|].
  cbv zeta. unfold main, mbind, Script_bind, of_loader, of_mapper, of_printer,
    save_results_to.
  cbn [value events]. rewrite Hk, Hu. cbn [value events]. rewrite Hfm.
  cbn [value events]. rewrite Hw, Hrows. cbn [value events].
  destruct (finished (print_summary keywords (dict_items keywords [] fm)));
    cbn [value events]; rewrite <- ?app_assoc; reflexivity.
Qed.




Lemma keywords_of_lines_blank lines :
  Forall (λ line, Text.strip line = EmptyString) lines -> keywords_of_lines lines = [].
Proof.
  induction 1 as [|line rest Hline _ IH]; [reflexivity|].
  cbn [keywords_of_lines]. rewrite Hline. exact IH.
Qed.







(** X21: a keywords file that holds only blank lines makes the script
    fail after its work is done: the report is written, with no row, and
    then the summary divides by the number of keywords, so the script logs
    [ZeroDivisionError] and exits with status 1. *)
Theorem main_without_keywords (urlparse : string -> result ParseResult) (env : Env)
    (args : Args) (content : string) (urls_data : list (gmap column pyobj)) :
  read_text env (keywords_file args) = Ok content ->
  Forall (λ line, Text.strip line = EmptyString) (file_lines content) ->
  loaded (load_screaming_frog_data env (screaming_frog_file args)) = Ok urls_data ->
  open_write env (output_file args) = Ok tt ->
  fst (main urlparse env args) = 1%Z
  /\ FileWritten (output_file args) [] ∈ snd (main urlparse env args)
  /\ last (snd (main urlparse env args))
     = Some (IoLogged (ERROR, ScriptFailed (PyError "ZeroDivisionError"))).
Proof.
  intros Hread Hblank Hu Hw.
  assert (Hk : loaded (load_keywords env (keywords_file args)) = Ok []).
  { unfold load_keywords. rewrite Hread. cbn [loaded].
    rewrite (keywords_of_lines_blank _ Hblank). reflexivity. }
  destruct (main_reaches_summary urlparse _ _ _ _ Hk Hu Hw)
    as (fm & rows & _ & Hrows & Hm).
  assert (rows = []) by (cbn in Hrows; congruence). subst rows.
  cbv zeta in Hm. rewrite Hm, print_summary_finished. cbn [fst snd].
  split; [reflexivity|]. split; [|apply last_snoc].
  rewrite !elem_of_app.
  assert (Hin : FileWritten (output_file args) []
                ∈ [FileWritten (output_file args) [];
                   MapperLogged (INFO, ResultsSaved (output_file args))]) by left.
  tauto.
Qed.

Lemma main_without_keywords_witness :
  fst (main Urllib.urlparse (sample_env "  " [Sample.red_shoes]) default_args) = 1%Z
  /\ FileWritten "keyword_mappings_final.csv" []
       ∈ snd (main Urllib.urlparse (sample_env "  " [Sample.red_shoes]) default_args)
  /\ last (snd (main Urllib.urlparse (sample_env "  " [Sample.red_shoes]) default_args))
     = Some (IoLogged (ERROR, ScriptFailed (PyError "ZeroDivisionError"))).
Proof.
  apply (main_without_keywords Urllib.urlparse (sample_env "  " [Sample.red_shoes])
           default_args "  " [Sample.red_shoes]).
  - reflexivity.
  - repeat constructor.
  - reflexivity.
  - reflexivity.
Defined.

(** ** The counts of the summary *)

Lemma logged_bind {A B} (m : M A) (f : A -> M B) :
  logged (m ≫= f)
  = match outcome m with
    | Ok a => (logged m ++ logged (f a))%list
    | Raise e => logged m
    end.
Proof. unfold mbind, M_bind. destruct (outcome m); reflexivity. Qed.

Lemma dict_items_elem keywords seen fm k e :
  (k, e) ∈ dict_items keywords seen fm
  <-> k ∈ keywords /\ ~ k ∈ seen /\ fm !! k = Some e.
Proof.
  revert seen. induction keywords as [|k0 rest IH]; intros seen.
  - cbn [dict_items]. split; [intros H; inversion H|intros [H _]; inversion H].
  - cbn [dict_items]. destruct (bool_decide (k0 ∈ seen)) eqn:B.
    + apply bool_decide_eq_true in B. rewrite IH, elem_of_cons. split.
      * intros (H1 & H2 & H3). split; [right; exact H1|]. split; assumption.
      * intros ([->|H1] & H2 & H3); [contradiction|]. split; [exact H1|]. split; assumption.
    + apply bool_decide_eq_false in B.
      assert (Hrest : (k, e) ∈ dict_items rest (k0 :: seen) fm
                      <-> k ∈ rest /\ k <> k0 /\ ~ k ∈ seen /\ fm !! k = Some e).
      { rewrite IH, not_elem_of_cons. tauto. }
      destruct (fm !! k0) as [e0|] eqn:E.
      * rewrite !elem_of_cons, Hrest. split.
        -- intros [[= -> ->]|(H1 & H2 & H3 & H4)].
           ++ split; [left; reflexivity|]. split; assumption.
           ++ split; [right; exact H1|]. split; assumption.
        -- intros ([->|H1] & H2 & H3).
           ++ left. congruence.
           ++ destruct (decide (k = k0)) as [->|Hne].
              ** left. congruence.
              ** right. repeat split; assumption.
      * rewrite Hrest, elem_of_cons. split.
        -- intros (H1 & H2 & H3 & H4). split; [right; exact H1|]. split; assumption.
        -- intros ([->|H1] & H2 & H3); [congruence|].
           repeat split; try assumption. intros ->. congruence.
Qed.

Lemma dict_items_NoDup keywords seen fm : NoDup (map fst (dict_items keywords seen fm)).
Proof.
  revert seen. induction keywords as [|k0 rest IH]; intros seen; [constructor|].
  cbn [dict_items]. destruct (bool_decide (k0 ∈ seen)); [apply IH|].
  destruct (fm !! k0) as [e0|]; [|apply IH].
  cbn [map fst]. constructor; [|apply IH].
  intros H. apply list_elem_of_fmap in H as [[k e] [Hk Hin]]. cbn [fst] in Hk. subst k.
  apply dict_items_elem in Hin as (_ & Hseen & _). apply Hseen. left.
Qed.

(** The items are those of the store, each key once. *)
Lemma dict_items_store keywords fm :
  (forall k, is_Some (fm !! k) -> k ∈ keywords) ->
  dict_items keywords [] fm ≡ₚ map_to_list fm.
Proof.
  intros Hdom. apply NoDup_Permutation.
  - eapply NoDup_fmap_1. apply dict_items_NoDup.
  - apply NoDup_map_to_list.
  - intros [k e]. rewrite dict_items_elem, elem_of_map_to_list. split.
    + intros (_ & _ & H). exact H.
    + intros H. split; [apply Hdom; rewrite H; eexists; reflexivity|].
      split; [apply not_elem_of_nil|exact H].
Qed.

Lemma scored_items_count items :
  length (scored_items items)
  = length (List.filter (λ kv, bool_decide (is_Some (snd kv))) items).
Proof.
  induction items as [|[k [m|]] rest IH]; [reflexivity| |].
  - cbn [scored_items omap list_omap snd List.filter] in *.
    rewrite bool_decide_eq_true_2 by (eexists; reflexivity).
    cbn [length]. rewrite <- IH. reflexivity.
  - cbn [scored_items omap list_omap snd List.filter] in *.
    rewrite bool_decide_eq_false_2 by (intros [? ?]; discriminate).
    exact IH.
Qed.

Lemma filter_length_perm {A} (p : A -> bool) l1 l2 :
  l1 ≡ₚ l2 -> length (List.filter p l1) = length (List.filter p l2).
Proof.
  induction 1 as [|x l1 l2 _ IH|x y l|l1 l2 l3 _ IH1 _ IH2]; cbn [List.filter].
  - reflexivity.
  - destruct (p x); cbn [length]; congruence.
  - destruct (p x), (p y); reflexivity.
  - congruence.
Qed.

Lemma dict_items_length keywords seen fm :
  (length (dict_items keywords seen fm) <= length keywords)%nat.
Proof.
  revert seen. induction keywords as [|k0 rest IH]; intros seen; [cbn; lia|].
  cbn [dict_items length]. destruct (bool_decide (k0 ∈ seen)).
  - specialize (IH seen). lia.
  - destruct (fm !! k0); cbn [length]; specialize (IH (k0 :: seen)); lia.
Qed.

Lemma print_summary_head keywords items :
  firstn 7 (printed (print_summary keywords items))
  = [Blank; Rule; Heading; Rule; TotalKeywords (length keywords);
     MatchedKeywords (length (scored_items items));
     UnmatchedKeywords (Z.of_nat (length keywords)
                        - Z.of_nat (length (scored_items items)))].
Proof.
  unfold print_summary. rewrite printed_bind.
  rewrite (proj1 (for_each_print _)), (proj2 (for_each_print _)). reflexivity.
Qed.

(** X22: the summary and the log agree on the number of matched keywords:
    the count that [find_best_matches] logs when it ends is the count that
    [print_summary] prints for its store. It never exceeds the number of
    keywords, so the number printed as unmatched is never negative. *)
Theorem summary_counts_agree (urlparse : string -> result ParseResult)
    (keywords : list string) (urls_data : list (gmap column pyobj)) :
  exists fm n,
    outcome (find_best_matches urlparse keywords urls_data) = Ok fm
    /\ last (logged (find_best_matches urlparse keywords urls_data))
       = Some (INFO, Completed n (length keywords))
    /\ (n <= length keywords)%nat
    /\ firstn 7 (printed (print_summary keywords (dict_items keywords [] fm)))
       = [Blank; Rule; Heading; Rule; TotalKeywords (length keywords);
          MatchedKeywords n; UnmatchedKeywords (Z.of_nat (length keywords - n))].
Proof.
  destruct (find_best_matches_store urlparse keywords urls_data) as [fm [Hfm [He Hl]]].
  assert (Hdom : forall k, is_Some (fm !! k) -> k ∈ keywords).
  { intros k [e Hk]. destruct urls_data as [|row rest].
    - rewrite (He eq_refl), lookup_empty in Hk. discriminate.
    - rewrite Hl in Hk by discriminate.
      destruct (decide (k ∈ keywords)); [assumption|discriminate]. }
  set (n := length (scored_items (dict_items keywords [] fm))).
  assert (Hn : n = length (List.filter (λ kv, bool_decide (is_Some (snd kv)))
                                       (map_to_list fm))).
  { unfold n. rewrite scored_items_count.
    apply filter_length_perm, dict_items_store, Hdom. }
  assert (Hle : (n <= length keywords)%nat).
  { unfold n. rewrite scored_items_count.
    etransitivity; [apply List.filter_length_le|apply dict_items_length]. }
  exists fm, n. split; [exact Hfm|]. split; [|split; [exact Hle|]].
  - revert Hfm. unfold find_best_matches.
    rewrite outcome_bind, logged_bind. cbn [log outcome logged].
    rewrite outcome_bind, logged_bind.
    destruct (outcome (scan_keywords urlparse keywords urls_data ∅)) as [fm'|e];
      [|discriminate].
    rewrite outcome_bind, logged_bind. cbn [log mret M_ret outcome logged].
    intros [= ->]. rewrite <- Hn, app_nil_r, !app_assoc. apply last_snoc.
  - rewrite print_summary_head. fold n. rewrite Nat2Z.inj_sub by exact Hle. reflexivity.
Qed.

(** A run of the script on a keywords file with a repeated keyword: the
    report has a row for each line, the store one entry, so the summary
    counts one match among two keywords. *)
Example main_with_a_repeated_keyword :
  let run := main Urllib.urlparse
               (sample_env "red shoes
red shoes
" [Sample.about; Sample.red_shoes]) default_args in
  fst run = 0%Z
  /\ List.filter (λ ev, match ev with
                        | Printed (TotalKeywords _) | Printed (MatchedKeywords _)
                        | Printed (UnmatchedKeywords _) | Printed (MatchRate _) => true
                        | _ => false
                        end) (snd run)
     = [Printed (TotalKeywords 2); Printed (MatchedKeywords 1);
        Printed (UnmatchedKeywords 1); Printed (MatchRate (100 # 2))]
  /\ omap (λ ev, match ev with
                 | FileWritten _ rows => Some (map CsvRow.matched_url rows)
                 | _ => None
                 end) (snd run)
     = [["https://site.com/red-shoes"; "https://site.com/red-shoes"]].
Proof. vm_compute. repeat split. Qed.
